(** * reddit_ripper: a shallow embedding of [src/reddit_ripper.py]

    The program fetches one Reddit thread, flattens its comment tree into
    indented lines, renders a markdown document and writes it under a file
    name derived from the title and the subreddit.

    Python [str] values are sequences of Unicode code points: they are
    modelled as [list N].  The remote API client, the process environment
    and the file system are explicit values threaded through the code. *)

From Stdlib Require Import List NArith Lia String Ascii Bool.
From stdpp Require Import gmap.
Import ListNotations.

Local Open Scope N_scope.

(** ** Python strings *)

(** A [str] is a sequence of code points. *)
Definition pystr := list N.

(** An ASCII literal of the source, as code points. *)
Definition str (s : string) : pystr :=
  List.map N_of_ascii (list_ascii_of_string s).

(** [s * n] on strings. *)
Fixpoint str_mul (s : pystr) (n : nat) : pystr :=
  match n with
  | O => []
  | S k => s ++ str_mul s k
  end.

(** [sep.join(parts)]. *)
Fixpoint join (sep : pystr) (parts : list pystr) : pystr :=
  match parts with
  | [] => []
  | [p] => p
  | p :: rest => p ++ sep ++ join sep rest
  end.

(** [s.lstrip(chars)], [s.rstrip(chars)] and [s.strip(chars)], the set
    [chars] given by its membership test. *)
Fixpoint lstrip (cls : N -> bool) (s : pystr) : pystr :=
  match s with
  | [] => []
  | c :: r => if cls c then lstrip cls r else s
  end.

Definition rstrip (cls : N -> bool) (s : pystr) : pystr :=
  rev (lstrip cls (rev s)).

Definition strip (cls : N -> bool) (s : pystr) : pystr :=
  rstrip cls (lstrip cls s).

(** [s.startswith(p)], returning what follows the prefix. *)
Fixpoint strip_prefix (p s : pystr) : option pystr :=
  match p, s with
  | [], _ => Some s
  | _ :: _, [] => None
  | a :: p', b :: s' => if a =? b then strip_prefix p' s' else None
  end.

(** The longest prefix of [s] made of characters of the class. *)
Fixpoint span_class (cls : N -> bool) (s : pystr) : pystr :=
  match s with
  | [] => []
  | c :: r => if cls c then c :: span_class cls r else []
  end.

(** ** Regular expressions used by the source *)

(** [re.sub('[...]', '', s)] for a one-character class: every character of
    the class is deleted. *)
Definition re_sub_delete (cls : N -> bool) (s : pystr) : pystr :=
  List.filter (fun c => negb (cls c)) s.

(** [re.sub('[...]+', repl, s)]: every maximal run of characters of the
    class is replaced by one copy of [repl].  [in_run] tells that the
    previous character belonged to the run being replaced. *)
Fixpoint re_sub_runs_from (cls : N -> bool) (repl : pystr) (in_run : bool)
    (s : pystr) : pystr :=
  match s with
  | [] => []
  | c :: r =>
      if cls c
      then (if in_run then [] else repl) ++ re_sub_runs_from cls repl true r
      else c :: re_sub_runs_from cls repl false r
  end.

Definition re_sub_runs (cls : N -> bool) (repl : pystr) (s : pystr) : pystr :=
  re_sub_runs_from cls repl false s.

(** The class [[a-zA-Z0-9]]. *)
Definition is_ascii_alnum (c : N) : bool :=
  ((48 <=? c) && (c <=? 57)) || ((65 <=? c) && (c <=? 90))
  || ((97 <=? c) && (c <=? 122)).

(** The character class of line 32: less-than, greater-than, colon, double
    quote, slash, backslash, bar, question mark and star, the characters
    that are illegal in file paths. *)
Definition path_illegal_chars : pystr := [60; 62; 58; 34; 47; 92; 124; 63; 42].

Definition is_path_illegal (c : N) : bool :=
  existsb (N.eqb c) path_illegal_chars.

Definition path_legal (c : N) : Prop := is_path_illegal c = false.

Definition underscore : N := 95.
Definition hyphen : N := 45.
Definition is_underscore (c : N) : bool := c =? underscore.

(** ** The Unicode tables of the interpreter

    [\w], [\s] and [str.lower] read the interpreter's Unicode database.
    The database is not part of the repository; the code is modelled over
    any database, and the facts a theorem needs about it are hypotheses of
    that theorem. *)
Record unicode_db := {
  uni_isalnum : N -> bool;        (* [str.isalnum] of one code point *)
  uni_isspace : N -> bool;        (* [str.isspace] of one code point *)
  uni_lower : pystr -> pystr      (* [str.lower] *)
}.

(** [\w]: alphanumeric or underscore. *)
Definition re_word (db : unicode_db) (c : N) : bool :=
  uni_isalnum db c || is_underscore c.

(** [\s]. *)
Definition re_space (db : unicode_db) (c : N) : bool := uni_isspace db c.

(** The class [[^\w\s-]] of line 34. *)
Definition not_word_space_hyphen (db : unicode_db) (c : N) : bool :=
  negb (re_word db c || re_space db c || (c =? hyphen)).

(** The class [[-\s]] of line 36. *)
Definition hyphen_or_space (db : unicode_db) (c : N) : bool :=
  (c =? hyphen) || re_space db c.

(** ** [RedditRipper.sanitize_filename] (lines 29-37) *)

Definition sanitize_filename (db : unicode_db) (text : pystr) : pystr :=
  let text := re_sub_delete is_path_illegal text in
  let text := re_sub_delete (not_word_space_hyphen db) text in
  let text := re_sub_runs (hyphen_or_space db) [underscore] text in
  strip is_underscore (firstn 100 (uni_lower db text)).

(** The tables on U+0000..U+007F: whitespace is tab, line feed, vertical
    tab, form feed, carriage return, the four separators U+001C..U+001F and
    the space; lower-casing moves [A-Z] to [a-z]. *)
Definition is_ascii (c : N) : Prop := c < 128.

Definition ascii_isspace (c : N) : bool :=
  ((9 <=? c) && (c <=? 13)) || ((28 <=? c) && (c <=? 32)).

Definition ascii_lower (c : N) : N :=
  if (65 <=? c) && (c <=? 90) then c + 32 else c.

(** The database agrees with these tables on ASCII text. *)
Record ascii_tables (db : unicode_db) : Prop := {
  ascii_alnum_ok : forall c, is_ascii c -> uni_isalnum db c = is_ascii_alnum c;
  ascii_space_ok : forall c, is_ascii c -> uni_isspace db c = ascii_isspace c;
  ascii_lower_ok : forall s, Forall is_ascii s ->
                             uni_lower db s = List.map ascii_lower s
}.

(** A database that agrees with CPython's on U+0000..U+007F, on U+0130
    (LATIN CAPITAL LETTER I WITH DOT ABOVE) and on U+0307 (COMBINING DOT
    ABOVE); it is used to run the code on inputs drawn from these code
    points.  Other code points are treated as caseless symbols. *)
Definition sample_isalnum (c : N) : bool := is_ascii_alnum c || (c =? 304).

Definition sample_isspace (c : N) : bool := ascii_isspace c.

Definition sample_lower_char (c : N) : pystr :=
  if c =? 304 then [105; 775] else [ascii_lower c].

Definition sample_db : unicode_db :=
  {| uni_isalnum := sample_isalnum;
     uni_isspace := sample_isspace;
     uni_lower := flat_map sample_lower_char |}.

(** ** The comment tree

    A node of a comment forest.  [body] is [None] for an object without a
    [body] attribute (a placeholder for comments that were not loaded);
    [replies] is the forest below the node. *)
Unset Elimination Schemes.
Inductive comment : Type :=
  mk_comment (body : option pystr) (replies : list comment).
Set Elimination Schemes.

Definition body (c : comment) : option pystr :=
  match c with mk_comment b _ => b end.

Definition replies (c : comment) : list comment :=
  match c with mk_comment _ r => r end.

(** Truth value of a sequence: non-empty. *)
Definition truthy_list {A : Type} (l : list A) : bool :=
  match l with [] => false | _ :: _ => true end.

(** Line 47: the line of a comment, [indent] being two spaces times the
    depth. *)
Definition comment_line (depth : nat) (b : pystr) : pystr :=
  let indent := str_mul (str "  ") depth in
  indent ++ str "- " ++ b.

(** ** [RedditRipper.extract_comments] (lines 39-53)

    [visit_comment] is the body of the loop of line 43 for one element;
    the loop appends the lines of the elements in order.  The recursive
    call of line 51 does not pass [top_level_only], which therefore takes
    its default [False]. *)
Fixpoint visit_comment (depth : nat) (top_level_only : bool) (c : comment)
    {struct c} : list pystr :=
  match c with
  | mk_comment (Some b) rs =>
      comment_line depth b ::
      (if negb top_level_only && truthy_list rs
       then flat_map (visit_comment (S depth) false) rs
       else [])
  | mk_comment None _ => []
  end.

Definition extract_comments (comment_forest : list comment) (depth : nat)
    (top_level_only : bool) : list pystr :=
  flat_map (visit_comment depth top_level_only) comment_forest.

(** ** [RedditRipper.extract_post_id] (lines 23-27)

    [re.search] tries the pattern [/comments/([a-zA-Z0-9]+)] at every
    position from the left; the group is the longest run of alphanumerics
    after the literal, and must not be empty. *)
Definition match_comments_here (s : pystr) : option pystr :=
  match strip_prefix (str "/comments/") s with
  | Some after =>
      match span_class is_ascii_alnum after with
      | [] => None
      | id => Some id
      end
  | None => None
  end.

Fixpoint extract_post_id (url : pystr) : option pystr :=
  match match_comments_here url with
  | Some id => Some id
  | None =>
      match url with
      | [] => None
      | _ :: rest => extract_post_id rest
      end
  end.

(** ** Remote data, post data, exceptions *)

(** What the API client exposes of a submission, once the placeholders of
    its comment forest have been replaced (line 63). *)
Record submission := {
  sub_title : pystr;
  sub_display_name : pystr;
  sub_selftext : pystr;
  sub_comments : list comment
}.

(** The dictionary built at lines 66-72. *)
Record post_data := {
  pd_title : pystr;
  pd_subreddit : pystr;
  pd_content : pystr;
  pd_url : pystr;
  pd_comments : list pystr
}.

Inductive exn : Type :=
| ValueError (msg : pystr)            (* line 59 *)
| RemoteError (msg : pystr)           (* raised by the API client *)
| OSError (msg : pystr)               (* raised by the file system *)
| UnicodeEncodeError (msg : pystr).   (* raised when text is encoded *)

(** [str(e)]. *)
Definition exn_msg (e : exn) : pystr :=
  match e with
  | ValueError m | RemoteError m | OSError m | UnicodeEncodeError m => m
  end.

(** A request to the API: the credentials and user agent the client was
    built with, and the id of the submission. *)
Record request := {
  rq_client_id : pystr;
  rq_client_secret : pystr;
  rq_user_agent : pystr;
  rq_post_id : pystr
}.

(** ** The world the program runs in *)
Record world := {
  w_dirs : gset pystr;              (* directories, by path *)
  w_files : gmap pystr pystr;       (* regular files and their text *)
  w_stdout : list pystr;            (* lines printed, oldest first *)
  w_stderr : list pystr;
  w_requests : list request         (* requests sent, oldest first *)
}.

(** Computations that read and change the world and may raise. *)
Definition M (A : Type) : Type := world -> (exn + A) * world.

Definition ret {A : Type} (a : A) : M A := fun w => (inr a, w).

Definition raise {A : Type} (e : exn) : M A := fun w => (inl e, w).

Definition bind {A B : Type} (m : M A) (k : A -> M B) : M B :=
  fun w =>
    match m w with
    | (inr a, w') => k a w'
    | (inl e, w') => (inl e, w')
    end.

Notation "x <~ m ;; k" := (bind m (fun x => k))
  (at level 100, m at next level, right associativity).
Notation "m ;;; k" := (bind m (fun _ => k))
  (at level 100, right associativity).

Definition nl : pystr := [10].

(** [print(line)] and [print(line, file=sys.stderr)]. *)
Definition print (line : pystr) : M unit := fun w =>
  (inr tt, {| w_dirs := w_dirs w; w_files := w_files w;
              w_stdout := w_stdout w ++ [line]; w_stderr := w_stderr w;
              w_requests := w_requests w |}).

Definition print_err (line : pystr) : M unit := fun w =>
  (inr tt, {| w_dirs := w_dirs w; w_files := w_files w;
              w_stdout := w_stdout w; w_stderr := w_stderr w ++ [line];
              w_requests := w_requests w |}).

(** ** The operating system

    What decides the outcome of a call to the operating system but is not
    in the world above: for a path, the failure of [mkdir] (permissions, a
    read-only file system), of [open] (permissions, a file name longer than
    the file system allows) and, for a path and a text, of writing and
    closing (no space left), with the text of the exception and, for a
    failed write, what reached the file.  [os_errmsg] is the text of an
    [OSError] made of an error number and a file name, [codec_errmsg] that
    of the [UnicodeEncodeError] of a text. *)
Record os_model := {
  os_mkdir_fault : pystr -> option pystr;
  os_open_fault : pystr -> option pystr;
  os_write_fault : pystr -> pystr -> option (pystr * pystr);
  os_errmsg : N -> pystr -> pystr;
  codec_errmsg : pystr -> pystr
}.

(** A code point that UTF-8 cannot encode. *)
Definition is_surrogate (c : N) : bool := (55296 <=? c) && (c <=? 57343).

Definition has_surrogate (s : pystr) : bool := existsb is_surrogate s.

(** The path is a directory: it is recorded as one, or a directory or file
    is recorded below it. *)
Definition is_dir (path : pystr) (w : world) : bool :=
  bool_decide
    (path ∈ w_dirs w
     ∨ set_Exists (λ p, (path ++ str "/") `prefix_of` p) (w_dirs w)
     ∨ set_Exists (λ p, (path ++ str "/") `prefix_of` p) (dom (w_files w))).

(** The world with a directory added, and with the text of a file set. *)
Definition with_dir (path : pystr) (w : world) : world :=
  {| w_dirs := {[path]} ∪ w_dirs w; w_files := w_files w;
     w_stdout := w_stdout w; w_stderr := w_stderr w;
     w_requests := w_requests w |}.

Definition with_file (path text : pystr) (w : world) : world :=
  {| w_dirs := w_dirs w; w_files := <[path := text]> (w_files w);
     w_stdout := w_stdout w; w_stderr := w_stderr w;
     w_requests := w_requests w |}.

(** [os.makedirs(path, exist_ok=True)] for a one-component path.  [mkdir]
    fails when the path exists or when the system refuses; the failure is
    passed on unless the path is a directory.  A regular file at the path
    gives [FileExistsError], number 17. *)
Definition makedirs_exist_ok (os : os_model) (path : pystr) : M unit := fun w =>
  match w_files w !! path with
  | Some _ => (inl (OSError (os_errmsg os 17 path)), w)
  | None =>
      if is_dir path w then (inr tt, with_dir path w)
      else
        match os_mkdir_fault os path with
        | Some msg => (inl (OSError msg), w)
        | None => (inr tt, with_dir path w)
        end
  end.

(** [with open(path, 'w', encoding='utf-8') as f: f.write(content)].
    [open] raises [IsADirectoryError], number 21, on a directory, and
    whatever the system refuses; once it has returned the file exists and
    is empty.  [f.write] encodes the text, which fails on a surrogate, and
    the text reaches the file when it is written and closed, which the
    system may cut short. *)
Definition write_text (os : os_model) (path content : pystr) : M unit := fun w =>
  if decide (path ∈ w_dirs w)
  then (inl (OSError (os_errmsg os 21 path)), w)
  else
    match os_open_fault os path with
    | Some msg => (inl (OSError msg), w)
    | None =>
        if has_surrogate content
        then (inl (UnicodeEncodeError (codec_errmsg os content)),
              with_file path [] w)
        else
          match os_write_fault os path content with
          | Some (msg, written) => (inl (OSError msg), with_file path written w)
          | None => (inr tt, with_file path content w)
          end
    end.

(** [os.path.join(a, b)] of [posixpath]. *)
Definition starts_with_sep (s : pystr) : bool :=
  match s with c :: _ => c =? 47 | [] => false end.

Definition ends_with_sep (s : pystr) : bool := starts_with_sep (rev s).

Definition path_join (a b : pystr) : pystr :=
  if starts_with_sep b then b
  else if negb (truthy_list a) || ends_with_sep a then a ++ b
  else a ++ str "/" ++ b.

(** ** [RedditRipper.format_markdown] (lines 76-87) *)
Definition format_markdown (pd : post_data) : pystr :=
  let md := str "# " ++ pd_title pd ++ nl ++ nl in
  let md := md ++ (str "**Original Post:** " ++ pd_url pd ++ nl ++ nl) in
  let md := md ++ (str "**Subreddit:** r/" ++ pd_subreddit pd ++ nl ++ nl) in
  let md := md ++ (str "## Post Content" ++ nl ++ nl ++ pd_content pd ++ nl ++ nl) in
  let md :=
    if truthy_list (pd_comments pd)
    then (md ++ (str "## Comments" ++ nl ++ nl)) ++ join nl (pd_comments pd)
    else md in
  md.

(** [a or b] on strings: [a] unless it is empty. *)
Definition str_or (a b : pystr) : pystr :=
  if truthy_list a then a else b.

(** [a or b] and [not a] on values that are [None] or a string. *)
Definition truthy (a : option pystr) : bool :=
  match a with Some s => truthy_list s | None => false end.

Definition opt_or (a b : option pystr) : option pystr :=
  if truthy a then a else b.

Section Program.

(** The interpreter's Unicode tables, the answers of the remote API and the
    conditions of the operating system. *)
Variable db : unicode_db.
Variable remote : request -> exn + submission.
Variable os : os_model.

(** A [RedditRipper] object: what [praw.Reddit] was built with
    (lines 15-21). *)
Record ripper := {
  rr_client_id : pystr;
  rr_client_secret : pystr;
  rr_user_agent : pystr
}.

(** Lines 61-63: the submission is fetched from the API, which may
    raise. *)
Definition fetch_submission (self : ripper) (post_id : pystr) : M submission :=
  fun w =>
    let rq := {| rq_client_id := rr_client_id self;
                 rq_client_secret := rr_client_secret self;
                 rq_user_agent := rr_user_agent self;
                 rq_post_id := post_id |} in
    let w' := {| w_dirs := w_dirs w; w_files := w_files w;
                 w_stdout := w_stdout w; w_stderr := w_stderr w;
                 w_requests := w_requests w ++ [rq] |} in
    (remote rq, w').

(** ** [RedditRipper.extract_post] (lines 55-74) *)
Definition extract_post (self : ripper) (url : pystr) (top_level_only : bool)
    : M post_data :=
  match extract_post_id url with
  | None => raise (ValueError (str "Invalid Reddit URL"))
  | Some post_id =>
      sub <~ fetch_submission self post_id ;;
      ret {| pd_title := sub_title sub;
             pd_subreddit := sub_display_name sub;
             pd_content := str_or (sub_selftext sub) (str "[Link Post]");
             pd_url := url;
             pd_comments := extract_comments (sub_comments sub) 0 top_level_only |}
  end.

(** ** [RedditRipper.save_to_file] (lines 89-102) *)
Definition save_to_file (pd : post_data) (markdown_content : pystr) : M pystr :=
  makedirs_exist_ok os (str "output") ;;;
  let title := sanitize_filename db (pd_title pd) in
  let subreddit := sanitize_filename db (pd_subreddit pd) in
  let filename := str "reddit_" ++ title ++ str "_" ++ subreddit ++ str ".md" in
  let filepath := path_join (str "output") filename in
  write_text os filepath markdown_content ;;;
  ret filepath.

(** ** [main] (lines 113-134), from the arguments [parse_args] returned

    A run in which [parse_args] itself ends the process (a missing URL, an
    unknown option, a request for help) does not reach these lines. *)
Record cli_args := {
  arg_url : pystr;
  arg_client_id : option pystr;
  arg_client_secret : option pystr;
  arg_user_agent : pystr;
  arg_top_level_only : bool
}.

(** Lines 123-130, the body of the [try]. *)
Definition main_try (client_id client_secret : pystr) (args : cli_args) : M unit :=
  let ripper := {| rr_client_id := client_id;
                   rr_client_secret := client_secret;
                   rr_user_agent := arg_user_agent args |} in
  pd <~ extract_post ripper (arg_url args) (arg_top_level_only args) ;;
  let markdown_content := format_markdown pd in
  filename <~ save_to_file pd markdown_content ;;
  print (str "Successfully extracted to: " ++ filename).

(** [main] returns the exit status of the process.  [environ] is the
    environment after [load_dotenv()]. *)
Definition main (environ : gmap pystr pystr) (args : cli_args)
    : world -> nat * world :=
  fun w =>
    let client_id := opt_or (arg_client_id args) (environ !! str "REDDIT_CLIENT_ID") in
    let client_secret :=
      opt_or (arg_client_secret args) (environ !! str "REDDIT_CLIENT_SECRET") in
    if negb (truthy client_id) || negb (truthy client_secret)
    then
      let '(_, w1) :=
        print_err (str "Error: Reddit API credentials required. Provide via CLI args or .env file.") w in
      (1%nat, w1)
    else
      match main_try (default [] client_id) (default [] client_secret) args w with
      | (inr _, w1) => (0%nat, w1)
      | (inl e, w1) =>
          let '(_, w2) := print_err (str "Error: " ++ exn_msg e) w1 in
          (1%nat, w2)
      end.

End Program.

(** ** Notions of the specification *)

(** Every node of the forest has a body. *)
Fixpoint all_bodies (c : comment) : bool :=
  match c with
  | mk_comment b rs => bool_decide (is_Some b) && forallb all_bodies rs
  end.

Definition forest_all_bodies (f : list comment) : bool := forallb all_bodies f.

(** Number of comment nodes of a tree and of a forest. *)
Fixpoint node_count (c : comment) : nat :=
  match c with
  | mk_comment _ rs => S (list_sum (List.map node_count rs))
  end.

Definition forest_count (f : list comment) : nat :=
  list_sum (List.map node_count f).

(** Pre-order traversal, after the glossary of the specification: visit a
    node, then recursively its children at the next depth, before moving to
    the next sibling.  Each visited node comes with its depth. *)
Fixpoint preorder_node (d : nat) (c : comment) : list (nat * comment) :=
  match c with
  | mk_comment _ rs => (d, c) :: flat_map (preorder_node (S d)) rs
  end.

Definition preorder (d : nat) (f : list comment) : list (nat * comment) :=
  flat_map (preorder_node d) f.

(** The line the specification asks for a node at depth [d]: two spaces
    repeated [d] times, the marker, the raw body. *)
Definition spec_line (dc : nat * comment) : pystr :=
  concat (repeat (str "  ") (fst dc)) ++ str "- " ++ default [] (body (snd dc)).

(** A node without its replies. *)
Definition without_replies (c : comment) : comment := mk_comment (body c) [].

(** The forest without the subtrees rooted at nodes that have no body. *)
Fixpoint prune_node (c : comment) : list comment :=
  match c with
  | mk_comment (Some b) rs => [mk_comment (Some b) (flat_map prune_node rs)]
  | mk_comment None _ => []
  end.

Definition prune (f : list comment) : list comment := flat_map prune_node f.

(** The URL holds, after [pre], the literal [/comments/] immediately
    followed by the alphanumeric [c]. *)
Definition comments_at (url pre : pystr) (c : N) (post : pystr) : Prop :=
  url = pre ++ str "/comments/" ++ c :: post /\ is_ascii_alnum c = true.

(** The URL holds a segment [/comments/<id>/], [id] a non-empty run of
    alphanumerics. *)
Definition has_id_segment (url id : pystr) : Prop :=
  exists pre rest,
    url = pre ++ str "/comments/" ++ id ++ str "/" ++ rest
    /\ id <> [] /\ Forall (fun c => is_ascii_alnum c = true) id.

(** The pattern in the words of the specification, with the closing slash:
    [/comments/([a-zA-Z0-9]+)/], searched from the left. *)
Definition match_segment_here (s : pystr) : option pystr :=
  match strip_prefix (str "/comments/") s with
  | Some after =>
      let id := span_class is_ascii_alnum after in
      if truthy_list id && starts_with_sep (skipn (length id) after)
      then Some id else None
  | None => None
  end.

Fixpoint spec_post_id (url : pystr) : option pystr :=
  match match_segment_here url with
  | Some id => Some id
  | None =>
      match url with
      | [] => None
      | _ :: rest => spec_post_id rest
      end
  end.

(** The lines of the document as the specification lists them: the title,
    a blank line, the source, a blank line, the subreddit, a blank line, the
    content heading followed by the content and, when there are comments, a
    blank line, the comments heading and the comment lines. *)
Definition claimed_lines (pd : post_data) : list pystr :=
  [str "# " ++ pd_title pd; [];
   str "**Original Post:** " ++ pd_url pd; [];
   str "**Subreddit:** r/" ++ pd_subreddit pd; [];
   str "## Post Content";
   pd_content pd]
  ++ match pd_comments pd with
     | [] => []
     | _ :: _ => [[]; str "## Comments"] ++ pd_comments pd
     end.

(** The lines of the document as the code lays them out: a blank line also
    after each of the two headings, a blank line after the content, and one
    more empty line at the end when there are no comments. *)
Definition document_lines (pd : post_data) : list pystr :=
  [str "# " ++ pd_title pd; [];
   str "**Original Post:** " ++ pd_url pd; [];
   str "**Subreddit:** r/" ++ pd_subreddit pd; [];
   str "## Post Content"; [];
   pd_content pd; []]
  ++ match pd_comments pd with
     | [] => [[]]
     | _ :: _ => [str "## Comments"; []] ++ pd_comments pd
     end.

(** The path of the output file, in the words of the specification. *)
Definition output_path (db : unicode_db) (pd : post_data) : pystr :=
  str "output/reddit_" ++ sanitize_filename db (pd_title pd) ++ str "_"
  ++ sanitize_filename db (pd_subreddit pd) ++ str ".md".

(** The credential the specification asks for: the flag when it is given
    with a value, the configuration value otherwise. *)
Definition resolve_credential (flag config : option pystr) : option pystr :=
  match flag with
  | Some (c :: s) => Some (c :: s)
  | _ => config
  end.

(** A credential a client can be built with: a non-empty string. *)
Definition usable (cred : option pystr) : Prop :=
  exists c s, cred = Some (c :: s).

(** ** Sample data *)

(** The thread of the end-to-end scenario: one comment with one reply. *)
Definition thread_nice : list comment :=
  [mk_comment (Some (str "Nice!")) [mk_comment (Some (str "Thanks!")) []]].

(** A thread with a placeholder that hides two comments, and a comment whose
    replies contain a placeholder. *)
Definition thread_with_placeholders : list comment :=
  [mk_comment None [mk_comment (Some (str "hidden")) []];
   mk_comment (Some (str "a"))
     [mk_comment None [mk_comment (Some (str "lost")) []];
      mk_comment (Some (str "b")) []]].

Definition url_scenario : pystr :=
  str "https://reddit.example/r/test/comments/abc123/some_title/".

(** A thread URL without the title part. *)
Definition url_short : pystr := str "https://www.reddit.com/comments/abc123".

(** A URL in which an earlier [/comments/] is followed by text that is not
    closed by a slash. *)
Definition url_twice : pystr := str "/comments/ab-/comments/cd/".

Definition submission_scenario : submission :=
  {| sub_title := str "Some Title";
     sub_display_name := str "test";
     sub_selftext := str "Hello";
     sub_comments := thread_nice |}.

Definition remote_scenario (rq : request) : exn + submission :=
  if decide (rq_post_id rq = str "abc123")
  then inr submission_scenario
  else inl (RemoteError (str "received 404 HTTP response")).

Definition post_scenario : post_data :=
  {| pd_title := str "Some Title";
     pd_subreddit := str "test";
     pd_content := str "Hello";
     pd_url := url_scenario;
     pd_comments := [str "- Nice!"; str "  - Thanks!"] |}.

Definition args_no_flags : cli_args :=
  {| arg_url := url_scenario; arg_client_id := None; arg_client_secret := None;
     arg_user_agent := str "RedditRipper/1.0"; arg_top_level_only := false |}.

Definition args_scenario : cli_args :=
  {| arg_url := url_scenario; arg_client_id := Some (str "id");
     arg_client_secret := Some (str "secret");
     arg_user_agent := str "RedditRipper/1.0"; arg_top_level_only := false |}.

Definition world_empty : world :=
  {| w_dirs := ∅; w_files := ∅; w_stdout := []; w_stderr := [];
     w_requests := [] |}.

(** Length in bytes of the UTF-8 encoding. *)
Definition utf8_len (c : N) : nat :=
  if c <? 128 then 1%nat else if c <? 2048 then 2%nat
  else if c <? 65536 then 3%nat else 4%nat.

Definition utf8_length (s : pystr) : nat := list_sum (List.map utf8_len s).

(** The last component of a path. *)
Definition basename (path : pystr) : pystr :=
  rev (span_class (fun c => negb (c =? 47)) (rev path)).

(** An operating system that refuses file names of more than 255 bytes and
    nothing else. *)
Definition sample_os : os_model :=
  {| os_mkdir_fault := fun _ => None;
     os_open_fault := fun path =>
       if (255 <? utf8_length (basename path))%nat
       then Some (str "[Errno 36] File name too long")
       else None;
     os_write_fault := fun _ _ => None;
     os_errmsg := fun n path =>
       if n =? 17 then str "[Errno 17] File exists: " ++ path
       else str "[Errno 21] Is a directory: " ++ path;
     codec_errmsg := fun _ => str "surrogates not allowed" |}.

(** A link post without comments, a post whose sanitized title and
    subreddit take 150 bytes each, and a post with a self text. *)
Definition post_link : post_data :=
  {| pd_title := str "T"; pd_subreddit := str "s";
     pd_content := str "[Link Post]"; pd_url := str "u"; pd_comments := [] |}.

Definition post_long_name : post_data :=
  {| pd_title := repeat 304 100; pd_subreddit := repeat 304 100;
     pd_content := []; pd_url := []; pd_comments := [] |}.

Definition submission_link : submission :=
  {| sub_title := str "Some Title";
     sub_display_name := str "test";
     sub_selftext := [];
     sub_comments := [] |}.

Definition remote_link (rq : request) : exn + submission := inr submission_link.

(** ** Notions used by the further properties *)

(** The characters of a sanitized ASCII text: [a-z], [0-9] and [_]. *)
Definition is_filename_char (c : N) : bool :=
  ((97 <=? c) && (c <=? 122)) || ((48 <=? c) && (c <=? 57)) || (c =? underscore).

(** A path separator, POSIX or Windows. *)
Definition is_path_sep (c : N) : bool := (c =? 47) || (c =? 92).

(** The file name of line 96. *)
Definition output_name (db : unicode_db) (pd : post_data) : pystr :=
  str "reddit_" ++ sanitize_filename db (pd_title pd) ++ str "_"
  ++ sanitize_filename db (pd_subreddit pd) ++ str ".md".

(** The usual URL of a thread: subreddit, id, and whatever follows. *)
Definition thread_url (subreddit id rest : pystr) : pystr :=
  str "https://www.reddit.com/r/" ++ subreddit ++ str "/comments/" ++ id
  ++ str "/" ++ rest.

(** The world after [os.makedirs('output', exist_ok=True)] succeeded. *)
Definition with_output_dir (w : world) : world :=
  {| w_dirs := {[str "output"]} ∪ w_dirs w; w_files := w_files w;
     w_stdout := w_stdout w; w_stderr := w_stderr w;
     w_requests := w_requests w |}.

(** The world after one more request. *)
Definition with_request (rq : request) (w : world) : world :=
  {| w_dirs := w_dirs w; w_files := w_files w;
     w_stdout := w_stdout w; w_stderr := w_stderr w;
     w_requests := w_requests w ++ [rq] |}.

(** The request [main] sends for the given credentials and post id. *)
Definition request_of (client_id client_secret : pystr) (args : cli_args)
    (post_id : pystr) : request :=
  {| rq_client_id := client_id; rq_client_secret := client_secret;
     rq_user_agent := arg_user_agent args; rq_post_id := post_id |}.

(** The dictionary [extract_post] builds from a submission. *)
Definition post_of (url : pystr) (top_level_only : bool) (sub : submission)
    : post_data :=
  {| pd_title := sub_title sub;
     pd_subreddit := sub_display_name sub;
     pd_content := str_or (sub_selftext sub) (str "[Link Post]");
     pd_url := url;
     pd_comments := extract_comments (sub_comments sub) 0 top_level_only |}.

(** The top-level nodes that have a body. *)
Definition with_body (c : comment) : bool := bool_decide (is_Some (body c)).

(** The world after a line was printed on the standard output, or on the
    error stream. *)
Definition with_stdout (line : pystr) (w : world) : world :=
  {| w_dirs := w_dirs w; w_files := w_files w;
     w_stdout := w_stdout w ++ [line]; w_stderr := w_stderr w;
     w_requests := w_requests w |}.

Definition with_stderr (line : pystr) (w : world) : world :=
  {| w_dirs := w_dirs w; w_files := w_files w;
     w_stdout := w_stdout w; w_stderr := w_stderr w ++ [line];
     w_requests := w_requests w |}.

(** Command lines with both flags: a URL without a thread id, and the URL of
    a thread the sample API does not know. *)
Definition args_bad_url : cli_args :=
  {| arg_url := str "https://www.reddit.com/r/test/";
     arg_client_id := Some (str "id"); arg_client_secret := Some (str "secret");
     arg_user_agent := str "RedditRipper/1.0"; arg_top_level_only := false |}.

Definition args_unknown : cli_args :=
  {| arg_url := str "https://www.reddit.com/r/test/comments/zzz/";
     arg_client_id := Some (str "id"); arg_client_secret := Some (str "secret");
     arg_user_agent := str "RedditRipper/1.0"; arg_top_level_only := false |}.

(** A post whose title and subreddit try to leave the output directory. *)
Definition post_traversal : post_data :=
  {| pd_title := str "../../etc/passwd";
     pd_subreddit := str "a/b\c";
     pd_content := [];
     pd_url := [];
     pd_comments := [] |}.

(** * Properties *)

(** ** The comment flattener *)

(** Induction on comment trees, the replies of a node being covered by the
    induction hypothesis. *)
Lemma comment_ind (P : comment -> Prop) :
  (forall b rs, Forall P rs -> P (mk_comment b rs)) ->
  forall c, P c.
Proof.
  intros step. fix IH 1. intros [b rs]. apply step.
  induction rs as [|r rs IHrs]; constructor; [apply IH | exact IHrs].
Qed.

Lemma extract_comments_cons c rest d t :
  extract_comments (c :: rest) d t
  = visit_comment d t c ++ extract_comments rest d t.
Proof. reflexivity. Qed.

Lemma extract_comments_app f g d t :
  extract_comments (f ++ g) d t
  = extract_comments f d t ++ extract_comments g d t.
Proof. unfold extract_comments. apply flat_map_app. Qed.

(** The loop body on a node with a body, all comments requested: the
    node's line, then the lines of its replies one level deeper. *)
Lemma visit_comment_all d b rs :
  visit_comment d false (mk_comment (Some b) rs)
  = comment_line d b :: extract_comments rs (S d) false.
Proof. destruct rs; reflexivity. Qed.

Lemma visit_comment_top d b rs :
  visit_comment d true (mk_comment (Some b) rs) = [comment_line d b].
Proof. reflexivity. Qed.

Lemma visit_comment_no_body d t rs :
  visit_comment d t (mk_comment None rs) = [].
Proof. reflexivity. Qed.

Lemma str_mul_repeat s n : str_mul s n = concat (repeat s n).
Proof. induction n as [|n IH]; simpl; [reflexivity | now rewrite IH]. Qed.

Lemma forest_all_bodies_cons c f :
  forest_all_bodies (c :: f) = all_bodies c && forest_all_bodies f.
Proof. reflexivity. Qed.

Lemma all_bodies_node b rs :
  all_bodies (mk_comment b rs) = true ->
  exists text, b = Some text /\ forest_all_bodies rs = true.
Proof.
  simpl. intros H. apply andb_true_iff in H as [Hb Hrs].
  apply bool_decide_eq_true in Hb as [text ->]. eauto.
Qed.

Lemma visit_comment_length_all c :
  all_bodies c = true ->
  forall d, length (visit_comment d false c) = node_count c.
Proof.
  induction c as [b rs IH] using comment_ind. intros Hc d.
  apply all_bodies_node in Hc as (text & -> & Hrs).
  rewrite visit_comment_all. simpl. f_equal.
  clear text. revert Hrs. induction IH as [|r rs Hr _ IHrs]; intros Hrs.
  - reflexivity.
  - rewrite forest_all_bodies_cons in Hrs. apply andb_true_iff in Hrs as [H1 H2].
    rewrite extract_comments_cons, length_app, Hr by assumption.
    simpl. f_equal. apply IHrs, H2.
Qed.

Lemma flatten_all_length f :
  forest_all_bodies f = true ->
  forall d, length (extract_comments f d false) = forest_count f.
Proof.
  induction f as [|c f IH]; intros Hf d; [reflexivity|].
  rewrite forest_all_bodies_cons in Hf. apply andb_true_iff in Hf as [H1 H2].
  rewrite extract_comments_cons, length_app, visit_comment_length_all by assumption.
  unfold forest_count in *. simpl. f_equal. apply IH, H2.
Qed.

(** With [top_level_only] the flattener emits one line per top-level node
    that has a body, whatever the replies are. *)
Lemma flatten_top_lines f d :
  extract_comments f d true
  = flat_map (fun c => match body c with
                       | Some b => [comment_line d b]
                       | None => []
                       end) f.
Proof.
  induction f as [|[[b|] rs] f IH]; [reflexivity | |];
    rewrite extract_comments_cons, IH; reflexivity.
Qed.

Lemma flatten_top_length f :
  forest_all_bodies f = true ->
  forall d, length (extract_comments f d true) = length f.
Proof.
  induction f as [|c f IH]; intros Hf d; [reflexivity|].
  rewrite forest_all_bodies_cons in Hf. apply andb_true_iff in Hf as [H1 H2].
  destruct c as [b rs]. apply all_bodies_node in H1 as (text & -> & _).
  rewrite extract_comments_cons, visit_comment_top. simpl. f_equal. apply IH, H2.
Qed.

(** C1. For every comment forest in which every node has a body, the
    flattener produces as many lines as the forest has nodes when
    [top_level_only] is false, and as many lines as the forest has roots
    when it is true. *)
Theorem extract_comments_counts_nodes (forest : list comment) (depth : nat) :
  forest_all_bodies forest = true ->
  length (extract_comments forest depth false) = forest_count forest
  /\ length (extract_comments forest depth true) = length forest.
Proof.
  intros H. split.
  - apply flatten_all_length, H.
  - apply flatten_top_length, H.
Qed.

Lemma extract_comments_counts_nodes_witness :
  forest_all_bodies thread_nice = true
  /\ length (extract_comments thread_nice 0 false) = forest_count thread_nice
  /\ length (extract_comments thread_nice 0 true) = length thread_nice.
Proof.
  split; [reflexivity | apply (extract_comments_counts_nodes thread_nice 0); reflexivity].
Defined.

Lemma comment_line_spec d c b :
  body c = Some b -> comment_line d b = spec_line (d, c).
Proof.
  intros Hb. unfold comment_line, spec_line. simpl.
  now rewrite Hb, str_mul_repeat.
Qed.

Lemma visit_comment_preorder c :
  all_bodies c = true ->
  forall d, visit_comment d false c = List.map spec_line (preorder_node d c).
Proof.
  induction c as [b rs IH] using comment_ind. intros Hc d.
  apply all_bodies_node in Hc as (text & -> & Hrs).
  rewrite visit_comment_all. simpl preorder_node. rewrite map_cons.
  f_equal; [now apply comment_line_spec|].
  revert Hrs. induction IH as [|r rs Hr _ IHrs]; intros Hrs; [reflexivity|].
  rewrite forest_all_bodies_cons in Hrs. apply andb_true_iff in Hrs as [H1 H2].
  rewrite extract_comments_cons. simpl flat_map. rewrite map_app.
  f_equal; [now apply Hr | now apply IHrs].
Qed.

(** C2. For every comment forest in which every node has a body, the
    flattener emits the nodes in pre-order (a node, then its replies one
    level deeper, then its next sibling), and the line of a node at depth
    [d] is two spaces repeated [d] times, then the marker, then the raw
    body. *)
Theorem extract_comments_preorder (forest : list comment) (depth : nat) :
  forest_all_bodies forest = true ->
  extract_comments forest depth false
  = List.map spec_line (preorder depth forest).
Proof.
  induction forest as [|c f IH]; intros Hf; [reflexivity|].
  rewrite forest_all_bodies_cons in Hf. apply andb_true_iff in Hf as [H1 H2].
  rewrite extract_comments_cons. unfold preorder. simpl flat_map.
  rewrite map_app. f_equal; [now apply visit_comment_preorder | now apply IH].
Qed.

Lemma extract_comments_preorder_witness :
  forest_all_bodies thread_nice = true
  /\ extract_comments thread_nice 0 false
     = List.map spec_line (preorder 0 thread_nice).
Proof.
  split; [reflexivity | apply (extract_comments_preorder thread_nice 0); reflexivity].
Defined.

(** C3. With [top_level_only] the flattener never looks below the top
    level: the result is what the forest stripped of all replies gives,
    namely the lines of the top-level nodes in order.  Replies are dropped,
    no error is raised. *)
Theorem extract_comments_top_level_only (forest : list comment) (depth : nat) :
  extract_comments forest depth true
  = extract_comments (List.map without_replies forest) depth false
  /\ extract_comments forest depth true
     = flat_map (fun c => match body c with
                          | Some b => [comment_line depth b]
                          | None => []
                          end) forest.
Proof.
  split; [|apply flatten_top_lines].
  induction forest as [|[[b|] rs] f IH]; [reflexivity | |];
    rewrite map_cons, !extract_comments_cons, IH; reflexivity.
Qed.

Lemma visit_comment_prune c d :
  visit_comment d false c = extract_comments (prune_node c) d false.
Proof.
  revert d. induction c as [[b|] rs IH] using comment_ind; intros d;
    [|reflexivity].
  simpl prune_node. rewrite extract_comments_cons, !visit_comment_all.
  unfold extract_comments at 3. simpl flat_map. rewrite app_nil_r. f_equal.
  induction IH as [|r rs Hr _ IHrs]; [reflexivity|].
  simpl flat_map. rewrite extract_comments_cons, extract_comments_app.
  now rewrite Hr, IHrs.
Qed.

Lemma prune_all_bodies f : forest_all_bodies (prune f) = true.
Proof.
  assert (node : forall c, forest_all_bodies (prune_node c) = true).
  { induction c as [[b|] rs IH] using comment_ind; [|reflexivity].
    simpl. rewrite andb_true_r.
    induction IH as [|r rs Hr _ IHrs]; [reflexivity|].
    simpl flat_map. rewrite forallb_app. now rewrite IHrs, andb_true_r. }
  induction f as [|c f IH]; [reflexivity|].
  unfold prune, forest_all_bodies in *. simpl flat_map.
  rewrite forallb_app, IH, andb_true_r. apply node.
Qed.

(** C10. A node without a body contributes no line and hides its whole
    subtree: the flattener is defined on every forest and returns what it
    returns on the forest pruned of the subtrees rooted at bodyless nodes,
    a forest in which every node has a body. *)
Theorem extract_comments_skips_bodyless :
  (forall rs rest depth t,
     extract_comments (mk_comment None rs :: rest) depth t
     = extract_comments rest depth t)
  /\ (forall forest depth t,
        extract_comments forest depth t = extract_comments (prune forest) depth t)
  /\ (forall forest, forest_all_bodies (prune forest) = true).
Proof.
  split; [reflexivity|]. split; [|apply prune_all_bodies].
  intros forest depth [|].
  - rewrite !flatten_top_lines.
    induction forest as [|[[b|] rs] f IH]; [reflexivity | |]; simpl.
    + now rewrite IH.
    + exact IH.
  - induction forest as [|c f IH]; [reflexivity|].
    unfold prune. simpl flat_map.
    rewrite extract_comments_cons, extract_comments_app.
    now rewrite visit_comment_prune, IH.
Qed.

(** ** The text sanitizer *)

(** Facts on the string helpers. *)
Lemma lstrip_Forall (P : N -> Prop) cls s :
  Forall P s -> Forall P (lstrip cls s).
Proof.
  induction 1 as [|c r Hc Hr IH]; simpl; [constructor|].
  destruct (cls c); [exact IH | now constructor].
Qed.

Lemma lstrip_length cls s : (length (lstrip cls s) <= length s)%nat.
Proof.
  induction s as [|c r IH]; simpl; [lia|]. destruct (cls c); simpl; lia.
Qed.

Lemma rstrip_Forall (P : N -> Prop) cls s :
  Forall P s -> Forall P (rstrip cls s).
Proof.
  intros H. unfold rstrip. apply Forall_rev, lstrip_Forall, Forall_rev, H.
Qed.

Lemma rstrip_length cls s : (length (rstrip cls s) <= length s)%nat.
Proof.
  unfold rstrip. rewrite length_rev.
  etransitivity; [apply lstrip_length | now rewrite length_rev].
Qed.

Lemma strip_Forall (P : N -> Prop) cls s :
  Forall P s -> Forall P (strip cls s).
Proof. intros H. apply rstrip_Forall, lstrip_Forall, H. Qed.

Lemma strip_length cls s : (length (strip cls s) <= length s)%nat.
Proof.
  unfold strip. etransitivity; [apply rstrip_length | apply lstrip_length].
Qed.

(** What [lstrip] leaves is empty or starts outside the class. *)
Lemma lstrip_head cls s :
  lstrip cls s = [] \/ exists c r, lstrip cls s = c :: r /\ cls c = false.
Proof.
  induction s as [|c r IH]; simpl; [now left|].
  destruct (cls c) eqn:Hc; [exact IH | right; eauto].
Qed.

Lemma lstrip_snoc_keep cls s c :
  cls c = false -> lstrip cls (s ++ [c]) = lstrip cls s ++ [c].
Proof.
  intros Hc. induction s as [|a s IH]; simpl; [now rewrite Hc|].
  destruct (cls a); [exact IH | reflexivity].
Qed.

Lemma rstrip_cons_keep cls c s :
  cls c = false -> rstrip cls (c :: s) = c :: rstrip cls s.
Proof.
  intros Hc. unfold rstrip. simpl rev.
  now rewrite lstrip_snoc_keep, rev_app_distr.
Qed.

Lemma lstrip_idem cls s : lstrip cls (lstrip cls s) = lstrip cls s.
Proof.
  destruct (lstrip_head cls s) as [-> | (c & r & -> & Hc)]; [reflexivity|].
  simpl. now rewrite Hc.
Qed.

Lemma strip_idem cls s : strip cls (strip cls s) = strip cls s.
Proof.
  unfold strip.
  assert (Hl : forall u, lstrip cls (rstrip cls (lstrip cls u))
                         = rstrip cls (lstrip cls u)).
  { intros u. destruct (lstrip_head cls u) as [-> | (c & r & -> & Hc)];
      [reflexivity|].
    rewrite rstrip_cons_keep by assumption. simpl. now rewrite Hc. }
  rewrite Hl. unfold rstrip at 1 2. now rewrite rev_involutive, lstrip_idem.
Qed.

Lemma re_sub_delete_Forall cls s :
  Forall (fun c => cls c = false) (re_sub_delete cls s).
Proof.
  unfold re_sub_delete. induction s as [|c r IH]; simpl; [constructor|].
  destruct (cls c) eqn:Hc; simpl; [exact IH | now constructor].
Qed.

Lemma re_sub_delete_keeps (P : N -> Prop) cls s :
  Forall P s -> Forall P (re_sub_delete cls s).
Proof.
  unfold re_sub_delete. induction 1 as [|c r Hc Hr IH]; simpl; [constructor|].
  destruct (cls c); simpl; [exact IH | now constructor].
Qed.

Lemma re_sub_delete_id cls s :
  Forall (fun c => cls c = false) s -> re_sub_delete cls s = s.
Proof.
  unfold re_sub_delete. induction 1 as [|c r Hc Hr IH]; simpl; [reflexivity|].
  now rewrite Hc, IH.
Qed.

Lemma re_sub_delete_all cls s :
  Forall (fun c => cls c = true) s -> re_sub_delete cls s = [].
Proof.
  unfold re_sub_delete. induction 1 as [|c r Hc Hr IH]; simpl; [reflexivity|].
  now rewrite Hc.
Qed.

Lemma re_sub_runs_from_Forall (P : N -> Prop) cls repl b s :
  Forall P repl -> Forall P s -> Forall P (re_sub_runs_from cls repl b s).
Proof.
  intros Hrepl Hs. revert b.
  induction Hs as [|c r Hc Hr IH]; intros b; simpl; [constructor|].
  destruct (cls c).
  - apply Forall_app. split; [destruct b; [constructor | exact Hrepl] | apply IH].
  - constructor; [exact Hc | apply IH].
Qed.

Lemma re_sub_runs_id cls repl s :
  Forall (fun c => cls c = false) s -> re_sub_runs cls repl s = s.
Proof.
  unfold re_sub_runs. induction 1 as [|c r Hc Hr IH]; simpl; [reflexivity|].
  now rewrite Hc, IH.
Qed.

Lemma re_sub_delete_Forall_and (P : N -> Prop) cls s :
  Forall P s -> Forall (fun c => P c /\ cls c = false) (re_sub_delete cls s).
Proof.
  unfold re_sub_delete. induction 1 as [|c r Hc Hr IH]; simpl; [constructor|].
  destruct (cls c) eqn:E; simpl; [exact IH | now constructor].
Qed.

Lemma re_sub_runs_from_keeps (P R : N -> Prop) cls repl s :
  Forall R repl ->
  (forall c, P c -> cls c = false -> R c) ->
  Forall P s ->
  Forall R (re_sub_runs cls repl s).
Proof.
  intros Hrepl HPR Hs. unfold re_sub_runs. generalize false.
  induction Hs as [|c r Hc Hr IH]; intros b; simpl; [constructor|].
  destruct (cls c) eqn:E.
  - apply Forall_app. split; [destruct b; [constructor | exact Hrepl] | apply IH].
  - constructor; [now apply HPR | apply IH].
Qed.

Ltac n_cases :=
  repeat match goal with
         | |- context [N.leb ?a ?b] => destruct (N.leb_spec a b); simpl; try lia
         | |- context [N.eqb ?a ?b] => destruct (N.eqb_spec a b); simpl; try lia
         end.

(** Lower-casing an ASCII word character gives a lower-case ASCII word
    character. *)
Lemma ascii_lower_word c :
  is_ascii c -> is_ascii_alnum c = true \/ c = underscore ->
  (is_ascii (ascii_lower c)
   /\ (is_ascii_alnum (ascii_lower c) = true \/ ascii_lower c = underscore))
  /\ ascii_lower (ascii_lower c) = ascii_lower c.
Proof.
  unfold is_ascii, ascii_lower, underscore. intros Hc [Hw | ->].
  - revert Hw. unfold is_ascii_alnum.
    destruct (N.leb_spec 65 c), (N.leb_spec c 90); simpl;
      n_cases; intros Hw; try discriminate Hw; repeat split; try lia;
      left; reflexivity.
  - simpl. repeat split; try lia; try (now right).
Qed.

(** None of the three substitutions touches an ASCII word character. *)
Lemma ascii_word_untouched c :
  is_ascii_alnum c = true \/ c = underscore ->
  is_path_illegal c = false
  /\ negb (is_ascii_alnum c || is_underscore c || ascii_isspace c || (c =? hyphen))
     = false
  /\ (c =? hyphen) || ascii_isspace c = false.
Proof.
  intros [Hw | ->]; [|now repeat split].
  revert Hw.
  unfold is_ascii_alnum, is_path_illegal, is_underscore, ascii_isspace,
    underscore, hyphen. simpl.
  n_cases; intros Hw; try discriminate Hw; repeat split.
Qed.

Section Sanitizer.

Variable db : unicode_db.

(** The text before lower-casing holds no path-illegal character. *)
Lemma sanitize_filename_filtered_legal text :
  Forall path_legal
    (re_sub_runs (hyphen_or_space db) [underscore]
       (re_sub_delete (not_word_space_hyphen db)
          (re_sub_delete is_path_illegal text))).
Proof.
  apply re_sub_runs_from_Forall; [now repeat constructor|].
  apply re_sub_delete_keeps, re_sub_delete_Forall.
Qed.

Lemma sanitize_filename_length text :
  (length (sanitize_filename db text) <= 100)%nat.
Proof.
  unfold sanitize_filename.
  etransitivity; [apply strip_length | apply firstn_le_length].
Qed.

(** A text that is short, trimmed, in lower case and made of characters
    that none of the three substitutions touches is left as it is. *)
Lemma sanitize_filename_fixed s :
  (length s <= 100)%nat ->
  strip is_underscore s = s ->
  Forall (fun c => is_path_illegal c = false
                   /\ not_word_space_hyphen db c = false
                   /\ hyphen_or_space db c = false) s ->
  uni_lower db s = s ->
  sanitize_filename db s = s.
Proof.
  intros Hlen Hstrip Hs Hlow. unfold sanitize_filename.
  rewrite (re_sub_delete_id is_path_illegal)
    by (eapply Forall_impl; [exact Hs|]; now intros c (H & _ & _)).
  rewrite (re_sub_delete_id (not_word_space_hyphen db))
    by (eapply Forall_impl; [exact Hs|]; now intros c (_ & H & _)).
  rewrite re_sub_runs_id
    by (eapply Forall_impl; [exact Hs|]; now intros c (_ & _ & H)).
  rewrite Hlow, firstn_all2 by exact Hlen. exact Hstrip.
Qed.

(** C5. For every string, the sanitized text has at most 100 characters
    and no path-illegal character; the function is total; the empty
    string and the strings made of path-illegal characters only are
    mapped to the empty string.  Of [str.lower] it is assumed that it
    maps the empty string to itself and introduces no path-illegal
    character. *)
Theorem sanitize_filename_safe :
  uni_lower db [] = [] ->
  (forall s, Forall path_legal s -> Forall path_legal (uni_lower db s)) ->
  forall text,
    (length (sanitize_filename db text) <= 100)%nat
    /\ Forall path_legal (sanitize_filename db text)
    /\ sanitize_filename db [] = []
    /\ (Forall (fun c => is_path_illegal c = true) text ->
        sanitize_filename db text = []).
Proof.
  intros Hnil Hlegal text. split; [apply sanitize_filename_length|].
  split; [|split].
  - unfold sanitize_filename.
    apply strip_Forall, Forall_take, Hlegal, sanitize_filename_filtered_legal.
  - change (sanitize_filename db [])
      with (strip is_underscore (firstn 100 (uni_lower db []))).
    now rewrite Hnil.
  - intros Hall. unfold sanitize_filename.
    rewrite (re_sub_delete_all is_path_illegal) by exact Hall.
    change (strip is_underscore (firstn 100 (uni_lower db [])) = []).
    now rewrite Hnil.
Qed.

(** C4, amended. Sanitizing a sanitized text again changes nothing
    whenever that text consists of word characters only and is left
    unchanged by [str.lower].  Of the tables it is assumed that a word
    character is neither path-illegal, nor a hyphen, nor whitespace. *)
Theorem sanitize_filename_idempotent_on_words :
  (forall c, re_word db c = true ->
             is_path_illegal c = false /\ c <> hyphen /\ re_space db c = false) ->
  forall x,
    Forall (fun c => re_word db c = true) (sanitize_filename db x) ->
    uni_lower db (sanitize_filename db x) = sanitize_filename db x ->
    sanitize_filename db (sanitize_filename db x) = sanitize_filename db x.
Proof.
  intros Hword x Hs Hlow.
  apply sanitize_filename_fixed; try assumption.
  - apply sanitize_filename_length.
  - unfold sanitize_filename. apply strip_idem.
  - eapply Forall_impl; [exact Hs|]. intros c Hc.
    destruct (Hword c Hc) as (Hlegal & Hh & Hsp).
    unfold not_word_space_hyphen, hyphen_or_space. rewrite Hc, Hsp.
    repeat split; [exact Hlegal|]. rewrite orb_false_r. now apply N.eqb_neq.
Qed.

(** X3. On ASCII text the hypotheses of the amended C4 hold, the sanitized
    text being made of [a-z], [0-9] and [_]: when the tables are the ASCII
    ones on ASCII text, sanitizing an ASCII text twice gives what sanitizing
    it once gives. *)
Lemma sanitize_filename_idempotent_ascii :
  ascii_tables db ->
  forall x, Forall is_ascii x ->
    sanitize_filename db (sanitize_filename db x) = sanitize_filename db x.
Proof.
  intros [Halnum Hspace Hlower] x Hx.
  set (word := fun c => is_ascii c /\ (is_ascii_alnum c = true \/ c = underscore)).
  set (low := fun c => word c /\ ascii_lower c = c).
  assert (Hfiltered : Forall word
            (re_sub_runs (hyphen_or_space db) [underscore]
               (re_sub_delete (not_word_space_hyphen db)
                  (re_sub_delete is_path_illegal x)))).
  { apply re_sub_runs_from_keeps
      with (P := fun c => is_ascii c /\ not_word_space_hyphen db c = false).
    - constructor; [|constructor].
      split; [unfold is_ascii, underscore; lia | now right].
    - intros c [Hc Hkeep] Hsep. split; [exact Hc|].
      unfold not_word_space_hyphen, hyphen_or_space, re_word, re_space in *.
      rewrite Halnum in Hkeep by exact Hc. unfold is_underscore in Hkeep.
      apply negb_false_iff in Hkeep. apply orb_false_iff in Hsep as [Hh Hsp].
      rewrite Hh, Hsp, !orb_false_r in Hkeep.
      apply orb_true_iff in Hkeep as [H|H]; [now left | right; now apply N.eqb_eq].
    - apply re_sub_delete_Forall_and, re_sub_delete_keeps, Hx. }
  assert (Hlow : Forall low (sanitize_filename db x)).
  { unfold sanitize_filename. apply strip_Forall, Forall_take.
    rewrite Hlower
      by (eapply Forall_impl; [exact Hfiltered|]; now intros c [H _]).
    apply Forall_map. eapply Forall_impl; [exact Hfiltered|].
    intros c [Hc Hw]. now apply ascii_lower_word. }
  apply sanitize_filename_fixed.
  - apply sanitize_filename_length.
  - unfold sanitize_filename. apply strip_idem.
  - eapply Forall_impl; [exact Hlow|]. intros c [[Hc Hw] _].
    unfold not_word_space_hyphen, hyphen_or_space, re_word, re_space.
    rewrite Halnum, Hspace by exact Hc. now apply ascii_word_untouched.
  - rewrite Hlower
      by (eapply Forall_impl; [exact Hlow|]; now intros c [[H _] _]).
    clear -Hlow. induction Hlow as [|c r [_ Hc] _ IH]; [reflexivity|].
    simpl. now rewrite Hc, IH.
Qed.

End Sanitizer.

(** The sample tables satisfy what the theorems above assume. *)
Lemma sample_lower_nil : uni_lower sample_db [] = [].
Proof. reflexivity. Qed.

Lemma sample_lower_legal s :
  Forall path_legal s -> Forall path_legal (uni_lower sample_db s).
Proof.
  induction 1 as [|c r Hc Hr IH]; simpl; [constructor|].
  apply Forall_app. split; [|exact IH]. clear IH Hr r.
  unfold sample_lower_char, ascii_lower.
  destruct (N.eqb_spec c 304); [now repeat constructor|].
  destruct ((65 <=? c) && (c <=? 90)) eqn:Hup; [|now repeat constructor].
  apply andb_true_iff in Hup as [H1 H2].
  apply N.leb_le in H1. apply N.leb_le in H2.
  repeat constructor. unfold path_legal, is_path_illegal. simpl.
  n_cases; reflexivity.
Qed.

Lemma sample_word_chars c :
  re_word sample_db c = true ->
  is_path_illegal c = false /\ c <> hyphen /\ re_space sample_db c = false.
Proof.
  unfold re_word, re_space, is_underscore, underscore, hyphen. simpl.
  unfold sample_isalnum, sample_isspace, ascii_isspace, is_ascii_alnum,
    is_path_illegal.
  simpl. n_cases; intros H; try discriminate H; repeat split; lia.
Qed.

Lemma sample_ascii_tables : ascii_tables sample_db.
Proof.
  split.
  - intros c Hc. unfold is_ascii in Hc. simpl. unfold sample_isalnum.
    destruct (N.eqb_spec c 304); [lia | apply orb_false_r].
  - reflexivity.
  - intros s Hs. simpl. induction Hs as [|c r Hc _ IH]; [reflexivity|].
    simpl. rewrite IH. unfold sample_lower_char. unfold is_ascii in Hc.
    destruct (N.eqb_spec c 304); [lia | reflexivity].
Qed.

Lemma sanitize_filename_safe_witness :
  uni_lower sample_db [] = []
  /\ (length (sanitize_filename sample_db (str "a/b: C?")) <= 100)%nat
  /\ Forall path_legal (sanitize_filename sample_db (str "a/b: C?"))
  /\ sanitize_filename sample_db [] = []
  /\ (Forall (fun c => is_path_illegal c = true) (str "a/b: C?") ->
      sanitize_filename sample_db (str "a/b: C?") = []).
Proof.
  split; [reflexivity|].
  apply (sanitize_filename_safe sample_db sample_lower_nil sample_lower_legal).
Defined.

(** C4, as stated, fails: lower-casing U+0130 yields [i] followed by the
    combining dot U+0307, which is not a word character and is removed by
    the second pass. *)
Lemma sanitize_filename_not_idempotent :
  sanitize_filename sample_db [304] = [105; 775]
  /\ sanitize_filename sample_db (sanitize_filename sample_db [304]) = [105]
  /\ sanitize_filename sample_db (sanitize_filename sample_db [304])
     <> sanitize_filename sample_db [304].
Proof. repeat split. vm_compute. discriminate. Qed.

Lemma sanitize_filename_idempotent_on_words_witness :
  Forall (fun c => re_word sample_db c = true)
    (sanitize_filename sample_db (str "Some Title"))
  /\ uni_lower sample_db (sanitize_filename sample_db (str "Some Title"))
     = sanitize_filename sample_db (str "Some Title")
  /\ sanitize_filename sample_db (sanitize_filename sample_db (str "Some Title"))
     = sanitize_filename sample_db (str "Some Title").
Proof.
  assert (Hw : Forall (fun c => re_word sample_db c = true)
                 (sanitize_filename sample_db (str "Some Title")))
    by (vm_compute; repeat constructor).
  assert (Hl : uni_lower sample_db (sanitize_filename sample_db (str "Some Title"))
               = sanitize_filename sample_db (str "Some Title"))
    by reflexivity.
  split; [exact Hw|]. split; [exact Hl|].
  exact (sanitize_filename_idempotent_on_words sample_db sample_word_chars
           (str "Some Title") Hw Hl).
Defined.

(** ** The URL parser *)

Lemma strip_prefix_app p s : strip_prefix p (p ++ s) = Some s.
Proof.
  induction p as [|a p IH]; simpl; [now destruct s|]. now rewrite N.eqb_refl.
Qed.

Lemma strip_prefix_Some p s r : strip_prefix p s = Some r -> s = p ++ r.
Proof.
  revert s. induction p as [|a p IH]; intros s H.
  - destruct s; now inversion H.
  - destruct s as [|b s]; [discriminate|]. simpl in H.
    destruct (N.eqb_spec a b) as [->|]; [|discriminate].
    simpl. f_equal. now apply IH.
Qed.

Lemma span_class_app cls id rest :
  Forall (fun c => cls c = true) id ->
  match rest with [] => True | c :: _ => cls c = false end ->
  span_class cls (id ++ rest) = id.
Proof.
  intros Hid Hrest. induction Hid as [|c r Hc Hr IH]; simpl.
  - destruct rest as [|c r]; [reflexivity|]. simpl. now rewrite Hrest.
  - now rewrite Hc, IH.
Qed.

(** The pattern matches at the start of the text exactly when the literal
    is there, followed by an alphanumeric. *)
Lemma match_comments_here_Some s id :
  match_comments_here s = Some id -> exists c q, comments_at s [] c q.
Proof.
  unfold match_comments_here, comments_at.
  destruct (strip_prefix (str "/comments/") s) as [after|] eqn:Hp; [|discriminate].
  apply strip_prefix_Some in Hp. subst s.
  destruct after as [|c q]; [discriminate|]. simpl span_class.
  destruct (is_ascii_alnum c) eqn:Hc; [|discriminate]. intros _.
  exists c, q. now split.
Qed.

Lemma match_comments_here_None s c q :
  match_comments_here s = None -> ~ comments_at s [] c q.
Proof.
  unfold match_comments_here, comments_at. intros H [-> Hc].
  change ([] ++ str "/comments/" ++ c :: q) with (str "/comments/" ++ c :: q) in H.
  rewrite strip_prefix_app in H. simpl span_class in H. rewrite Hc in H.
  discriminate.
Qed.

Lemma match_comments_here_id id rest :
  id <> [] ->
  Forall (fun c => is_ascii_alnum c = true) id ->
  match rest with [] => True | c :: _ => is_ascii_alnum c = false end ->
  match_comments_here (str "/comments/" ++ id ++ rest) = Some id.
Proof.
  intros Hne Hid Hrest. unfold match_comments_here.
  rewrite strip_prefix_app, span_class_app by assumption.
  now destruct id.
Qed.

Lemma extract_post_id_unfold url :
  extract_post_id url
  = match match_comments_here url with
    | Some id => Some id
    | None => match url with [] => None | _ :: rest => extract_post_id rest end
    end.
Proof. now destruct url. Qed.

Lemma extract_post_id_first_match pre id rest :
  id <> [] ->
  Forall (fun c => is_ascii_alnum c = true) id ->
  match rest with [] => True | c :: _ => is_ascii_alnum c = false end ->
  (forall p c q,
     comments_at (pre ++ str "/comments/" ++ id ++ rest) p c q ->
     (length pre <= length p)%nat) ->
  extract_post_id (pre ++ str "/comments/" ++ id ++ rest) = Some id.
Proof.
  intros Hne Hid Hrest. induction pre as [|a pre IH]; intros Hfirst.
  - rewrite extract_post_id_unfold.
    change ([] ++ str "/comments/" ++ id ++ rest)
      with (str "/comments/" ++ id ++ rest).
    now rewrite match_comments_here_id.
  - rewrite extract_post_id_unfold.
    destruct (match_comments_here ((a :: pre) ++ str "/comments/" ++ id ++ rest))
      as [id'|] eqn:Hm.
    + apply match_comments_here_Some in Hm as (c & q & Hat).
      apply Hfirst in Hat. simpl in Hat. lia.
    + change ((a :: pre) ++ str "/comments/" ++ id ++ rest)
        with (a :: (pre ++ str "/comments/" ++ id ++ rest)).
      cbv iota. apply IH. intros p c q [Heq Hc].
      assert (Hat : comments_at ((a :: pre) ++ str "/comments/" ++ id ++ rest)
                      (a :: p) c q).
      { split; [|exact Hc]. simpl. f_equal. exact Heq. }
      apply Hfirst in Hat. simpl in Hat. lia.
Qed.

Lemma extract_post_id_None url :
  extract_post_id url = None <-> ~ exists p c q, comments_at url p c q.
Proof.
  induction url as [|a url IH]; rewrite extract_post_id_unfold.
  - split; [|reflexivity]. intros _ (p & c & q & Heq & _).
    destruct p; discriminate Heq.
  - destruct (match_comments_here (a :: url)) as [id|] eqn:Hm.
    + split; [discriminate|]. intros Hno. exfalso. apply Hno.
      apply match_comments_here_Some in Hm as (c & q & Hat). now exists [], c, q.
    + rewrite IH. split; intros Hno (p & c & q & Hat); apply Hno.
      * destruct p as [|b p].
        -- now apply match_comments_here_None with (c := c) (q := q) in Hm.
        -- destruct Hat as [Heq Hc]. injection Heq as -> Heq.
           exists p, c, q. now split.
      * destruct Hat as [Heq Hc]. exists (a :: p), c, q.
        split; [|exact Hc]. simpl. now f_equal.
Qed.

Lemma spec_post_id_unfold url :
  spec_post_id url
  = match match_segment_here url with
    | Some id => Some id
    | None => match url with [] => None | _ :: rest => spec_post_id rest end
    end.
Proof. now destruct url. Qed.

(** A URL with a segment [/comments/<id>/] is matched by the pattern of the
    specification. *)
Lemma has_id_segment_spec_post_id url id :
  has_id_segment url id -> exists id', spec_post_id url = Some id'.
Proof.
  intros (pre & rest & -> & Hne & Hid).
  induction pre as [|a pre IH].
  - exists id. destruct id as [|c id]; [contradiction|].
    change ([] ++ str "/comments/" ++ (c :: id) ++ str "/" ++ rest)
      with (str "/comments/" ++ (c :: id) ++ str "/" ++ rest).
    rewrite spec_post_id_unfold. unfold match_segment_here.
    rewrite strip_prefix_app. cbv zeta.
    rewrite span_class_app; [| exact Hid | reflexivity].
    now rewrite skipn_app, skipn_all, Nat.sub_diag.
  - change ((a :: pre) ++ str "/comments/" ++ id ++ str "/" ++ rest)
      with (a :: (pre ++ str "/comments/" ++ id ++ str "/" ++ rest)).
    rewrite spec_post_id_unfold.
    destruct (match_segment_here _) as [id'|]; [now exists id' | exact IH].
Qed.

Example extract_post_id_scenario :
  extract_post_id url_scenario = Some (str "abc123").
Proof. reflexivity. Qed.

(** C6. The parser departs from the pattern that the comment of line 25
    states, [/comments/[post_id]/] with the closing slash.  A URL that ends
    with the id holds no segment [/comments/<id>/], the pattern with the
    slash finds nothing in it, and the parser returns an id all the same
    instead of letting [extract_post] raise.  And when an earlier
    [/comments/] is followed by alphanumerics that no slash closes, the id
    of the later, well-formed segment is not the one returned. *)
Lemma extract_post_id_not_segment :
  ((~ exists id, has_id_segment url_short id)
   /\ extract_post_id url_short = Some (str "abc123"))
  /\ (has_id_segment url_twice (str "cd")
      /\ extract_post_id url_twice = Some (str "ab")).
Proof.
  split; split.
  - intros [id H]. apply has_id_segment_spec_post_id in H as [id' H].
    vm_compute in H. discriminate H.
  - reflexivity.
  - exists (str "/comments/ab-"), []. split; [reflexivity|].
    split; [discriminate | now repeat constructor].
  - reflexivity.
Qed.

(** The pattern with the closing slash, on the same two URLs. *)
Example spec_post_id_on_samples :
  spec_post_id url_short = None /\ spec_post_id url_twice = Some (str "cd").
Proof. split; reflexivity. Qed.

(** X22. What the parser does: it returns the alphanumerics that follow
    the leftmost [/comments/] immediately followed by an alphanumeric, up to
    the first character that is not alphanumeric or to the end of the URL.
    It finds nothing exactly when the URL holds no [/comments/] followed by
    an alphanumeric, and [extract_post] then raises [ValueError] and leaves
    the world as it is, without a request to the API. *)
Theorem extract_post_id_leftmost_run
    (remote : request -> exn + submission) (self : ripper) (url : pystr)
    (top_level_only : bool) (w : world) :
  (forall pre id rest,
     url = pre ++ str "/comments/" ++ id ++ rest ->
     id <> [] ->
     Forall (fun c => is_ascii_alnum c = true) id ->
     match rest with [] => True | c :: _ => is_ascii_alnum c = false end ->
     (forall p c q, comments_at url p c q -> (length pre <= length p)%nat) ->
     extract_post_id url = Some id)
  /\ (extract_post_id url = None <-> ~ exists p c q, comments_at url p c q)
  /\ (extract_post_id url = None ->
      extract_post remote self url top_level_only w
      = (inl (ValueError (str "Invalid Reddit URL")), w)).
Proof.
  split; [|split].
  - intros pre id rest -> Hne Hid Hrest Hfirst.
    now apply extract_post_id_first_match.
  - apply extract_post_id_None.
  - intros H. unfold extract_post. now rewrite H.
Qed.

Lemma extract_post_id_leftmost_run_witness :
  extract_post_id (str "r/test/comments/abc123/some_title/") = Some (str "abc123").
Proof.
  refine (proj1 (extract_post_id_leftmost_run remote_scenario
                   {| rr_client_id := []; rr_client_secret := [];
                      rr_user_agent := [] |}
                   (str "r/test/comments/abc123/some_title/") false world_empty)
            (str "r/test") (str "abc123") (str "/some_title/") _ _ _ _ _).
  - reflexivity.
  - discriminate.
  - now repeat constructor.
  - reflexivity.
  - intros p c q [Heq _].
    do 6 (destruct p as [|? p]; [exfalso; vm_compute in Heq; discriminate Heq|]).
    simpl. lia.
Defined.

(** ** The document formatter *)

Lemma join_cons sep p q rest :
  join sep (p :: q :: rest) = p ++ sep ++ join sep (q :: rest).
Proof. reflexivity. Qed.

Lemma join_app sep xs ys :
  xs <> [] -> ys <> [] ->
  join sep (xs ++ ys) = join sep xs ++ sep ++ join sep ys.
Proof.
  intros Hx Hy. induction xs as [|a xs IH]; [contradiction|].
  destruct xs as [|b xs].
  - destruct ys; [contradiction | reflexivity].
  - change ((a :: b :: xs) ++ ys) with (a :: b :: (xs ++ ys)).
    rewrite !join_cons. change (b :: (xs ++ ys)) with ((b :: xs) ++ ys).
    rewrite IH by discriminate. now rewrite <- !app_assoc.
Qed.

(** C7, as stated, fails: the code puts a blank line between each of the
    two headings and what follows it, and ends the content with a blank
    line, so that a document without comments ends with two newlines; the
    list of the specification has none of these. *)
Lemma format_markdown_not_claimed_layout :
  format_markdown post_scenario <> join nl (claimed_lines post_scenario)
  /\ format_markdown post_link <> join nl (claimed_lines post_link)
  /\ format_markdown post_link
     = str "# T" ++ nl ++ nl ++ str "**Original Post:** u" ++ nl ++ nl
       ++ str "**Subreddit:** r/s" ++ nl ++ nl
       ++ str "## Post Content" ++ nl ++ nl ++ str "[Link Post]" ++ nl ++ nl.
Proof.
  split; [|split]; [intros H; vm_compute in H; discriminate H .. | reflexivity].
Qed.

(** C7, amended. The document is the lines [# title], blank,
    [**Original Post:** url], blank, [**Subreddit:** r/subreddit], blank,
    [## Post Content], blank, the content, blank, and then either one more
    empty line (no comments) or [## Comments], blank and the comment lines,
    all joined by single newlines.  When the API answers, the post data that
    [extract_post] returns has as content the self text of the answer, or
    the marker [[Link Post]] when the self text is empty, and as title,
    subreddit, URL and comments those of the answer and of the call.
    [format_markdown] is a function of the post data alone. *)
Theorem format_markdown_layout (pd : post_data) :
  format_markdown pd = join nl (document_lines pd)
  /\ forall remote self url top_level_only w post_id sub,
       extract_post_id url = Some post_id ->
       remote {| rq_client_id := rr_client_id self;
                 rq_client_secret := rr_client_secret self;
                 rq_user_agent := rr_user_agent self;
                 rq_post_id := post_id |} = inr sub ->
       exists w',
         extract_post remote self url top_level_only w
         = (inr {| pd_title := sub_title sub;
                   pd_subreddit := sub_display_name sub;
                   pd_content := match sub_selftext sub with
                                 | [] => str "[Link Post]"
                                 | _ :: _ => sub_selftext sub
                                 end;
                   pd_url := url;
                   pd_comments :=
                     extract_comments (sub_comments sub) 0 top_level_only |},
            w').
Proof.
  split.
  - unfold format_markdown, document_lines.
    destruct (pd_comments pd) as [|line lines] eqn:Hc.
    + cbn [truthy_list join app]. now rewrite <- !app_assoc.
    + cbn [truthy_list].
      rewrite (join_app nl _ ([str "## Comments"; []] ++ line :: lines))
        by discriminate.
      rewrite (join_app nl [str "## Comments"; []] (line :: lines))
        by discriminate.
      cbn [join app]. now rewrite <- !app_assoc.
  - intros remote self url top_level_only w post_id sub Hurl Hremote.
    unfold extract_post. rewrite Hurl.
    unfold bind, fetch_submission, ret. rewrite Hremote.
    eexists. unfold str_or. now destruct (sub_selftext sub).
Qed.

Lemma format_markdown_layout_witness :
  (exists w',
     extract_post remote_scenario
       {| rr_client_id := str "id"; rr_client_secret := str "secret";
          rr_user_agent := str "RedditRipper/1.0" |}
       url_scenario false world_empty
     = (inr post_scenario, w'))
  /\ (exists w',
        extract_post remote_link
          {| rr_client_id := str "id"; rr_client_secret := str "secret";
             rr_user_agent := str "RedditRipper/1.0" |}
          url_scenario true world_empty
        = (inr {| pd_title := str "Some Title"; pd_subreddit := str "test";
                  pd_content := str "[Link Post]"; pd_url := url_scenario;
                  pd_comments := [] |}, w')).
Proof.
  split.
  - refine (proj2 (format_markdown_layout post_scenario) remote_scenario _
              url_scenario false world_empty (str "abc123") submission_scenario
              _ _); reflexivity.
  - refine (proj2 (format_markdown_layout post_link) remote_link _
              url_scenario true world_empty (str "abc123") submission_link
              _ _); reflexivity.
Defined.

Example format_markdown_scenario :
  format_markdown post_scenario
  = str "# Some Title" ++ nl ++ nl
    ++ str "**Original Post:** " ++ url_scenario ++ nl ++ nl
    ++ str "**Subreddit:** r/test" ++ nl ++ nl
    ++ str "## Post Content" ++ nl ++ nl
    ++ str "Hello" ++ nl ++ nl
    ++ str "## Comments" ++ nl ++ nl
    ++ str "- Nice!" ++ nl ++ str "  - Thanks!".
Proof. reflexivity. Qed.

(** ** The file writer *)

Lemma path_join_output name :
  path_join (str "output") (str "reddit_" ++ name)
  = str "output/reddit_" ++ name.
Proof. reflexivity. Qed.

(** [save_to_file] is the two calls in sequence; the path it returns is
    the one it wrote to. *)
Lemma save_to_file_steps db os pd md w :
  save_to_file db os pd md w
  = match makedirs_exist_ok os (str "output") w with
    | (inl e, w1) => (inl e, w1)
    | (inr _, w1) =>
        match write_text os (output_path db pd) md w1 with
        | (inl e, w2) => (inl e, w2)
        | (inr _, w2) => (inr (output_path db pd), w2)
        end
    end.
Proof.
  unfold save_to_file, bind, ret. rewrite path_join_output.
  fold (output_path db pd).
  destruct (makedirs_exist_ok os (str "output") w) as [[e|[]] w1]; [reflexivity|].
  now destruct (write_text os (output_path db pd) md w1) as [[e|[]] w2].
Qed.

(** [makedirs] either raises and changes nothing, or returns with the
    directory recorded. *)
Lemma makedirs_cases os path w :
  (exists e, makedirs_exist_ok os path w = (inl e, w))
  \/ makedirs_exist_ok os path w = (inr tt, with_dir path w).
Proof.
  unfold makedirs_exist_ok.
  destruct (w_files w !! path); [left; eauto|].
  destruct (is_dir path w); [now right|].
  destruct (os_mkdir_fault os path); [left; eauto | now right].
Qed.

Lemma makedirs_ok os path w :
  w_files w !! path = None ->
  os_mkdir_fault os path = None ->
  makedirs_exist_ok os path w = (inr tt, with_dir path w).
Proof.
  intros Hfile Hfault. unfold makedirs_exist_ok. rewrite Hfile, Hfault.
  now destruct (is_dir path w).
Qed.

(** [write_text] either raises before the file is opened and changes
    nothing, or raises with some text under the path, or returns with the
    text under the path. *)
Lemma write_text_cases os path content w :
  (exists e, write_text os path content w = (inl e, w))
  \/ (exists e text, write_text os path content w = (inl e, with_file path text w))
  \/ write_text os path content w = (inr tt, with_file path content w).
Proof.
  unfold write_text.
  destruct (decide (path ∈ w_dirs w)); [left; eauto|].
  destruct (os_open_fault os path); [left; eauto|].
  destruct (has_surrogate content); [right; left; eauto|].
  destruct (os_write_fault os path content) as [[msg written]|];
    [right; left; eauto | now right; right].
Qed.

Lemma write_text_ok os path content w :
  path ∉ w_dirs w ->
  os_open_fault os path = None ->
  has_surrogate content = false ->
  os_write_fault os path content = None ->
  write_text os path content w = (inr tt, with_file path content w).
Proof.
  intros Hdir Hopen Henc Hwrite. unfold write_text.
  destruct (decide (path ∈ w_dirs w)); [contradiction|].
  now rewrite Hopen, Henc, Hwrite.
Qed.


Lemma output_path_not_output db pd : output_path db pd <> str "output".
Proof.
  unfold output_path. intros H.
  apply (f_equal (fun l => List.nth 6 l 0)) in H. discriminate H.
Qed.

Lemma save_to_file_ok db os pd md w :
  w_files w !! str "output" = None ->
  os_mkdir_fault os (str "output") = None ->
  output_path db pd ∉ w_dirs w ->
  os_open_fault os (output_path db pd) = None ->
  has_surrogate md = false ->
  os_write_fault os (output_path db pd) md = None ->
  save_to_file db os pd md w
  = (inr (output_path db pd),
     {| w_dirs := {[str "output"]} ∪ w_dirs w;
        w_files := <[output_path db pd := md]> (w_files w);
        w_stdout := w_stdout w; w_stderr := w_stderr w;
        w_requests := w_requests w |}).
Proof.
  intros Hout Hmk Hdir Hopen Henc Hwrite.
  rewrite save_to_file_steps, makedirs_ok by assumption.
  rewrite write_text_ok; try assumption; [reflexivity|].
  cbn [with_dir w_dirs]. rewrite elem_of_union, elem_of_singleton.
  pose proof (output_path_not_output db pd). tauto.
Qed.



(** With the 255-byte limit on file names, a post whose title and
    subreddit lower-case to 150 bytes each cannot be saved. *)
Example save_to_file_name_too_long :
  save_to_file sample_db sample_os post_long_name [] world_empty
  = (inl (OSError (str "[Errno 36] File name too long")),
     with_dir (str "output") world_empty).
Proof. vm_compute. reflexivity. Qed.

(** A text with a lone surrogate leaves the file empty. *)
Example save_to_file_surrogate :
  save_to_file sample_db sample_os post_scenario [56448] world_empty
  = (inl (UnicodeEncodeError (str "surrogates not allowed")),
     with_file (str "output/reddit_some_title_test.md") []
       (with_dir (str "output") world_empty)).
Proof. vm_compute. reflexivity. Qed.

(** ** The command line *)

Lemma opt_or_resolve flag config :
  opt_or flag config = resolve_credential flag config.
Proof. now destruct flag as [[|c s]|]. Qed.

Lemma truthy_usable cred : truthy cred = true <-> usable cred.
Proof.
  unfold usable. destruct cred as [[|c s]|]; simpl; split;
    try discriminate; try (intros (c' & s' & H); discriminate H); eauto.
Qed.

Lemma save_to_file_requests db os pd md w :
  w_requests (snd (save_to_file db os pd md w)) = w_requests w.
Proof.
  rewrite save_to_file_steps.
  destruct (makedirs_cases os (str "output") w) as [(e & ->) | ->]; [reflexivity|].
  now destruct (write_text_cases os (output_path db pd) md (with_dir (str "output") w))
    as [(e & ->) | [(e & text & ->) | ->]].
Qed.

(** C9. Each credential is the value of its flag when the flag carries a
    value, and the configuration value otherwise; the API is asked with the
    credentials so resolved.  When the two sources do not yield both a
    client id and a client secret, the process prints one line containing
    [credentials] on the error stream and exits with status 1; nothing else
    changes, and no request is sent. *)
Theorem main_credentials (db : unicode_db) (remote : request -> exn + submission)
    (os : os_model) (environ : gmap pystr pystr) (args : cli_args) (w : world) :
  let client_id :=
    resolve_credential (arg_client_id args) (environ !! str "REDDIT_CLIENT_ID") in
  let client_secret :=
    resolve_credential (arg_client_secret args)
      (environ !! str "REDDIT_CLIENT_SECRET") in
  (forall i s post_id,
     client_id = Some i -> i <> [] ->
     client_secret = Some s -> s <> [] ->
     extract_post_id (arg_url args) = Some post_id ->
     w_requests (snd (main db remote os environ args w))
     = w_requests w ++ [{| rq_client_id := i; rq_client_secret := s;
                           rq_user_agent := arg_user_agent args;
                           rq_post_id := post_id |}])
  /\ (~ (usable client_id /\ usable client_secret) ->
      exists before after,
        main db remote os environ args w
        = (1%nat,
           {| w_dirs := w_dirs w; w_files := w_files w;
              w_stdout := w_stdout w;
              w_stderr := w_stderr w ++ [before ++ str "credentials" ++ after];
              w_requests := w_requests w |})).
Proof.
  intros client_id client_secret. split.
  - intros i s post_id Hi Hine Hs Hsne Hurl. unfold main.
    rewrite !opt_or_resolve. fold client_id client_secret. rewrite Hi, Hs.
    destruct i as [|ci i]; [contradiction|].
    destruct s as [|cs s]; [contradiction|].
    cbn [truthy truthy_list negb orb default].
    unfold main_try, bind, extract_post. rewrite Hurl.
    unfold bind, fetch_submission, ret. cbn [rr_client_id rr_client_secret rr_user_agent].
    destruct (remote _) as [e|sub]; [reflexivity|].
    match goal with
    | |- context [save_to_file db os ?pd ?md ?w0] =>
        pose proof (save_to_file_requests db os pd md w0) as Hreq;
        destruct (save_to_file db os pd md w0) as [[e|path] w1]
    end; simpl in Hreq |- *; exact Hreq.
  - intros Hno. exists (str "Error: Reddit API "),
      (str " required. Provide via CLI args or .env file.").
    unfold main. rewrite !opt_or_resolve. fold client_id client_secret.
    destruct (truthy client_id) eqn:Hi; [|reflexivity].
    destruct (truthy client_secret) eqn:Hs; [|reflexivity].
    exfalso. apply Hno. split; now apply truthy_usable.
Qed.

Lemma main_credentials_witness :
  exists before after,
    main sample_db remote_scenario sample_os ∅ args_no_flags world_empty
    = (1%nat,
       {| w_dirs := ∅; w_files := ∅; w_stdout := [];
          w_stderr := [before ++ str "credentials" ++ after];
          w_requests := [] |}).
Proof.
  refine (proj2 (main_credentials sample_db remote_scenario sample_os ∅
                   args_no_flags world_empty) _).
  intros [(c & s & H) _]. cbn in H. rewrite lookup_empty in H. discriminate H.
Defined.

(** ** The end-to-end scenario of the specification *)

Example extract_comments_scenario :
  extract_comments thread_nice 0 false = [str "- Nice!"; str "  - Thanks!"]
  /\ extract_comments thread_nice 0 true = [str "- Nice!"].
Proof. split; reflexivity. Qed.

Example extract_comments_placeholders :
  extract_comments thread_with_placeholders 0 false = [str "- a"; str "  - b"].
Proof. reflexivity. Qed.

Example main_scenario :
  let '(status, w) :=
    main sample_db remote_scenario sample_os ∅ args_scenario world_empty in
  status = 0%nat
  /\ w_stdout w = [str "Successfully extracted to: output/reddit_some_title_test.md"]
  /\ w_stderr w = []
  /\ w_files w !! str "output/reddit_some_title_test.md"
     = Some (format_markdown post_scenario).
Proof. vm_compute. repeat split. Qed.

Example sanitize_some_title :
  sanitize_filename sample_db (str "Some Title") = str "some_title".
Proof. reflexivity. Qed.

Example sanitize_mixed :
  sanitize_filename sample_db (str "  What's <new> in C++ -- 2024?_ ")
  = str "whats_new_in_c_2024".
Proof. reflexivity. Qed.

(** * Further properties of the code *)

(** ** [sanitize_filename] *)

Lemma strip_head cls s c r : strip cls s = c :: r -> cls c = false.
Proof.
  unfold strip.
  destruct (lstrip_head cls s) as [-> | (a & v & -> & Ha)]; [discriminate|].
  rewrite rstrip_cons_keep by exact Ha. now intros [= <- _].
Qed.

Lemma strip_last cls s r c : strip cls s = r ++ [c] -> cls c = false.
Proof.
  unfold strip, rstrip.
  destruct (lstrip_head cls (rev (lstrip cls s))) as [-> | (b & v & -> & Hb)].
  - intros H. destruct r; discriminate H.
  - simpl rev. intros H. apply app_inj_tail in H as [_ <-]. exact Hb.
Qed.

(** X1. Whatever the text, the sanitized text neither starts nor ends with
    an underscore. *)
Theorem sanitize_filename_trimmed (db : unicode_db) (text : pystr) :
  head (sanitize_filename db text) <> Some underscore
  /\ last (sanitize_filename db text) <> Some underscore.
Proof.
  unfold sanitize_filename.
  set (s := firstn 100 _). split.
  - destruct (strip is_underscore s) as [|c r] eqn:E; [discriminate|].
    apply strip_head in E. simpl. intros [= ->]. discriminate E.
  - destruct (strip is_underscore s) as [|c r] eqn:E using rev_ind;
      [discriminate|].
    apply strip_last in E. rewrite last_snoc. intros [= ->]. discriminate E.
Qed.

(** Before lower-casing, an ASCII text is left with ASCII alphanumerics and
    underscores. *)
Lemma sanitize_filename_filtered_words db x :
  ascii_tables db -> Forall is_ascii x ->
  Forall (fun c => is_ascii c /\ (is_ascii_alnum c = true \/ c = underscore))
    (re_sub_runs (hyphen_or_space db) [underscore]
       (re_sub_delete (not_word_space_hyphen db)
          (re_sub_delete is_path_illegal x))).
Proof.
  intros [Halnum Hspace _] Hx.
  apply re_sub_runs_from_keeps
    with (P := fun c => is_ascii c /\ not_word_space_hyphen db c = false).
  - constructor; [|constructor].
    split; [unfold is_ascii, underscore; lia | now right].
  - intros c [Hc Hkeep] Hsep. split; [exact Hc|].
    unfold not_word_space_hyphen, hyphen_or_space, re_word, re_space in *.
    rewrite Halnum in Hkeep by exact Hc. unfold is_underscore in Hkeep.
    apply negb_false_iff in Hkeep. apply orb_false_iff in Hsep as [Hh Hsp].
    rewrite Hh, Hsp, !orb_false_r in Hkeep.
    apply orb_true_iff in Hkeep as [H|H]; [now left | right; now apply N.eqb_eq].
  - apply re_sub_delete_Forall_and, re_sub_delete_keeps, Hx.
Qed.

Lemma lower_word_is_filename_char c :
  is_ascii_alnum c = true \/ c = underscore ->
  is_filename_char (ascii_lower c) = true.
Proof.
  intros [Hw | ->]; [|reflexivity]. revert Hw.
  unfold is_filename_char, is_ascii_alnum, ascii_lower, underscore.
  destruct (N.leb_spec 65 c), (N.leb_spec c 90); simpl;
    n_cases; intros Hw; try discriminate Hw; reflexivity.
Qed.

(** X2. When the tables are the ASCII ones on ASCII text, the sanitized form
    of an ASCII text holds only lower-case letters, digits and
    underscores. *)
Theorem sanitize_filename_ascii_alphabet (db : unicode_db) (text : pystr) :
  ascii_tables db ->
  Forall is_ascii text ->
  Forall (fun c => is_filename_char c = true) (sanitize_filename db text).
Proof.
  intros Hdb Hx.
  pose proof (sanitize_filename_filtered_words db text Hdb Hx) as Hw.
  unfold sanitize_filename. apply strip_Forall, Forall_take.
  rewrite (ascii_lower_ok db Hdb)
    by (eapply Forall_impl; [exact Hw|]; now intros c [H _]).
  apply Forall_map. eapply Forall_impl; [exact Hw|].
  intros c [_ Hc]. now apply lower_word_is_filename_char.
Qed.

Lemma sanitize_filename_ascii_alphabet_witness :
  Forall (fun c => is_filename_char c = true)
    (sanitize_filename sample_db (str "What's <new> in C++ -- 2024?")).
Proof.
  apply (sanitize_filename_ascii_alphabet sample_db _ sample_ascii_tables).
  unfold is_ascii. repeat constructor.
Defined.

Lemma sanitize_filename_idempotent_ascii_witness :
  sanitize_filename sample_db (sanitize_filename sample_db (str "a - B_c: d?"))
  = sanitize_filename sample_db (str "a - B_c: d?").
Proof.
  apply (sanitize_filename_idempotent_ascii sample_db sample_ascii_tables).
  unfold is_ascii. repeat constructor.
Defined.

(** The substitutions commute with a character map that respects the
    class. *)
Lemma re_sub_delete_map (f : N -> N) cls s :
  Forall (fun c => cls (f c) = cls c) s ->
  re_sub_delete cls (List.map f s) = List.map f (re_sub_delete cls s).
Proof.
  unfold re_sub_delete. induction 1 as [|c r Hc _ IH]; [reflexivity|].
  simpl. rewrite Hc, IH. now destruct (cls c).
Qed.

Lemma re_sub_runs_map (f : N -> N) cls repl s :
  List.map f repl = repl ->
  Forall (fun c => cls (f c) = cls c) s ->
  re_sub_runs cls repl (List.map f s) = List.map f (re_sub_runs cls repl s).
Proof.
  intros Hrepl Hs. unfold re_sub_runs. generalize false.
  induction Hs as [|c r Hc _ IH]; intros b; [reflexivity|].
  simpl. rewrite Hc, !IH. destruct (cls c); [|reflexivity].
  rewrite map_app. now destruct b; rewrite ?Hrepl.
Qed.

Lemma ascii_lower_ascii c : is_ascii c -> is_ascii (ascii_lower c).
Proof.
  unfold is_ascii, ascii_lower.
  destruct (N.leb_spec 65 c), (N.leb_spec c 90); simpl; lia.
Qed.

Lemma ascii_lower_idem c : ascii_lower (ascii_lower c) = ascii_lower c.
Proof.
  unfold ascii_lower.
  destruct (N.leb_spec 65 c), (N.leb_spec c 90); simpl; n_cases; reflexivity.
Qed.

(** Lower-casing moves no character into or out of the three classes. *)
Lemma ascii_lower_classes c :
  is_path_illegal (ascii_lower c) = is_path_illegal c
  /\ is_ascii_alnum (ascii_lower c) = is_ascii_alnum c
  /\ is_underscore (ascii_lower c) = is_underscore c
  /\ ascii_isspace (ascii_lower c) = ascii_isspace c
  /\ (ascii_lower c =? hyphen) = (c =? hyphen).
Proof.
  unfold is_path_illegal, is_ascii_alnum, is_underscore, ascii_isspace,
    ascii_lower, underscore, hyphen. simpl.
  destruct (N.leb_spec 65 c), (N.leb_spec c 90); simpl;
    repeat split; n_cases; reflexivity.
Qed.

Lemma sanitize_filename_lower db x :
  ascii_tables db -> Forall is_ascii x ->
  sanitize_filename db (List.map ascii_lower x) = sanitize_filename db x.
Proof.
  intros Hdb Hx. pose proof Hdb as [Halnum Hspace Hlower].
  assert (H1 : Forall is_ascii (re_sub_delete is_path_illegal x))
    by now apply re_sub_delete_keeps.
  assert (H2 : Forall is_ascii
                 (re_sub_delete (not_word_space_hyphen db)
                    (re_sub_delete is_path_illegal x)))
    by now apply re_sub_delete_keeps.
  assert (H3 : Forall is_ascii
                 (re_sub_runs (hyphen_or_space db) [underscore]
                    (re_sub_delete (not_word_space_hyphen db)
                       (re_sub_delete is_path_illegal x)))).
  { apply re_sub_runs_from_Forall; [|exact H2].
    constructor; [unfold is_ascii, underscore; lia | constructor]. }
  unfold sanitize_filename.
  rewrite (re_sub_delete_map ascii_lower is_path_illegal).
  2:{ apply Forall_forall. intros c _. apply ascii_lower_classes. }
  rewrite (re_sub_delete_map ascii_lower (not_word_space_hyphen db)).
  2:{ eapply Forall_impl; [exact H1|]. intros c Hc.
      destruct (ascii_lower_classes c) as (_ & Ha & Hu & Hs & Hh).
      unfold not_word_space_hyphen, re_word, re_space.
      rewrite !Halnum, !Hspace by (try apply ascii_lower_ascii; exact Hc).
      now rewrite Ha, Hu, Hs, Hh. }
  rewrite (re_sub_runs_map ascii_lower (hyphen_or_space db)); [|reflexivity|].
  2:{ eapply Forall_impl; [exact H2|]. intros c Hc.
      destruct (ascii_lower_classes c) as (_ & _ & _ & Hs & Hh).
      unfold hyphen_or_space, re_space.
      rewrite !Hspace by (try apply ascii_lower_ascii; exact Hc).
      now rewrite Hs, Hh. }
  rewrite (Hlower (List.map ascii_lower _)).
  2:{ apply Forall_map. eapply Forall_impl; [exact H3|].
      intros c Hc. now apply ascii_lower_ascii. }
  rewrite (Hlower _ H3). f_equal. f_equal.
  rewrite map_map. apply map_ext. intros c. apply ascii_lower_idem.
Qed.

(** X4. File names ignore letter case: when the tables are the ASCII ones on
    ASCII text, two ASCII texts that differ only in the case of their
    letters have the same sanitized form. *)
Theorem sanitize_filename_ignores_case (db : unicode_db) (x y : pystr) :
  ascii_tables db ->
  Forall is_ascii x -> Forall is_ascii y ->
  List.map ascii_lower x = List.map ascii_lower y ->
  sanitize_filename db x = sanitize_filename db y.
Proof.
  intros Hdb Hx Hy Hxy.
  rewrite <- (sanitize_filename_lower db x), <- (sanitize_filename_lower db y)
    by assumption.
  now rewrite Hxy.
Qed.

Lemma sanitize_filename_ignores_case_witness :
  sanitize_filename sample_db (str "Some Title")
  = sanitize_filename sample_db (str "SOME title").
Proof.
  apply (sanitize_filename_ignores_case sample_db _ _ sample_ascii_tables);
    [unfold is_ascii; repeat constructor .. | reflexivity].
Defined.

(** ** [save_to_file] *)

Lemma output_is_dir db pd w :
  output_path db pd ∈ w_dirs w -> is_dir (str "output") w = true.
Proof.
  intros Hin. unfold is_dir. apply bool_decide_eq_true. right. left.
  exists (output_path db pd). split; [exact Hin|].
  exists (str "reddit_" ++ sanitize_filename db (pd_title pd) ++ str "_"
          ++ sanitize_filename db (pd_subreddit pd) ++ str ".md").
  reflexivity.
Qed.


(** What [save_to_file] leaves alone, whether it returns or raises. *)
Lemma save_to_file_effects db os pd md w :
  (forall q, q <> output_path db pd ->
             w_files (snd (save_to_file db os pd md w)) !! q = w_files w !! q)
  /\ (forall q, is_Some (w_files w !! q) ->
                is_Some (w_files (snd (save_to_file db os pd md w)) !! q))
  /\ w_dirs w ⊆ w_dirs (snd (save_to_file db os pd md w))
  /\ w_dirs (snd (save_to_file db os pd md w)) ⊆ {[str "output"]} ∪ w_dirs w
  /\ w_stdout (snd (save_to_file db os pd md w)) = w_stdout w
  /\ w_stderr (snd (save_to_file db os pd md w)) = w_stderr w
  /\ w_requests (snd (save_to_file db os pd md w)) = w_requests w.
Proof.
  assert (Hfile : forall text w0,
             (forall q, q <> output_path db pd ->
                        w_files (with_file (output_path db pd) text w0) !! q
                        = w_files w0 !! q)
             /\ (forall q, is_Some (w_files w0 !! q) ->
                           is_Some (w_files (with_file (output_path db pd) text w0) !! q))).
  { intros text w0. cbn [with_file w_files]. split.
    - intros q Hq. now apply lookup_insert_ne.
    - intros q Hq. rewrite lookup_insert. case_decide; [eauto | exact Hq]. }
  rewrite save_to_file_steps.
  destruct (makedirs_cases os (str "output") w) as [(e & ->) | ->].
  { cbn [snd]. repeat split; try done. apply union_subseteq_r. }
  destruct (write_text_cases os (output_path db pd) md (with_dir (str "output") w))
    as [(e & ->) | [(e & text & ->) | ->]]; cbn [snd];
    try (destruct (Hfile text (with_dir (str "output") w)) as [H1 H2]);
    try (destruct (Hfile md (with_dir (str "output") w)) as [H1 H2]);
    repeat split; try done; try apply union_subseteq_r.
Qed.

Lemma sanitize_filename_legal db text :
  (forall s, Forall path_legal s -> Forall path_legal (uni_lower db s)) ->
  Forall path_legal (sanitize_filename db text).
Proof.
  intros Hlegal. unfold sanitize_filename.
  apply strip_Forall, Forall_take, Hlegal, sanitize_filename_filtered_legal.
Qed.

Lemma path_legal_not_sep c : path_legal c -> is_path_sep c = false.
Proof.
  unfold path_legal, is_path_illegal, is_path_sep. simpl.
  n_cases; intros H; try discriminate H; reflexivity.
Qed.

(** X5. The file is written directly inside [output]: every path returned is
    [output/] followed by a name of at most 211 characters that holds no
    slash and no backslash, whatever the title and the subreddit are.  Of
    [str.lower] it is assumed that it introduces no path-illegal
    character. *)
Theorem save_to_file_inside_output (db : unicode_db) (os : os_model)
    (pd : post_data) (markdown_content : pystr) (w w' : world) (p : pystr) :
  (forall s, Forall path_legal s -> Forall path_legal (uni_lower db s)) ->
  save_to_file db os pd markdown_content w = (inr p, w') ->
  exists name,
    p = str "output/" ++ name
    /\ Forall (fun c => is_path_sep c = false) name
    /\ (length name <= 211)%nat.
Proof.
  intros Hlegal Hsave. rewrite save_to_file_steps in Hsave.
  destruct (makedirs_exist_ok os (str "output") w) as [[e|[]] w1]; [discriminate|].
  destruct (write_text os (output_path db pd) markdown_content w1) as [[e|[]] w2];
    [discriminate|].
  injection Hsave as <- _.
  exists (output_name db pd). split; [reflexivity|]. unfold output_name.
  assert (Hs : forall text,
             Forall (fun c => is_path_sep c = false) (sanitize_filename db text)).
  { intros text. eapply Forall_impl; [now apply sanitize_filename_legal|].
    apply path_legal_not_sep. }
  split.
  - repeat (apply Forall_app; split); try apply Hs; now repeat constructor.
  - rewrite !length_app.
    pose proof (sanitize_filename_length db (pd_title pd)).
    pose proof (sanitize_filename_length db (pd_subreddit pd)).
    change (length (str "reddit_")) with 7%nat.
    change (length (str "_")) with 1%nat.
    change (length (str ".md")) with 3%nat. lia.
Qed.

Lemma save_to_file_inside_output_witness :
  exists name,
    str "output/reddit_etcpasswd_abc.md" = str "output/" ++ name
    /\ Forall (fun c => is_path_sep c = false) name
    /\ (length name <= 211)%nat.
Proof.
  refine (save_to_file_inside_output sample_db sample_os post_traversal []
            world_empty _ _ sample_lower_legal
            (save_to_file_ok sample_db sample_os post_traversal [] world_empty
               _ _ _ _ _ _));
    try reflexivity.
  apply not_elem_of_empty.
Defined.




(** X8. When [output] is a regular file, [save_to_file] raises and changes
    nothing.  When the path of the document is a directory, it raises after
    having made sure that [output] exists, and writes no file. *)
Theorem save_to_file_blocked (db : unicode_db) (os : os_model) (pd : post_data)
    (markdown_content : pystr) (w : world) :
  (is_Some (w_files w !! str "output") ->
   exists e, save_to_file db os pd markdown_content w = (inl e, w))
  /\ (w_files w !! str "output" = None ->
      output_path db pd ∈ w_dirs w ->
      exists e,
        save_to_file db os pd markdown_content w = (inl e, with_output_dir w)).
Proof.
  rewrite save_to_file_steps. split.
  - intros [text Hfile]. unfold makedirs_exist_ok. rewrite Hfile. eauto.
  - intros Hfile Hdir. unfold makedirs_exist_ok.
    rewrite Hfile, (output_is_dir db pd w Hdir).
    unfold write_text.
    destruct (decide (output_path db pd ∈ w_dirs (with_dir (str "output") w)))
      as [_|Hout]; [eauto|].
    exfalso. apply Hout. cbn [with_dir w_dirs]. apply elem_of_union_r, Hdir.
Qed.

(** ** [extract_post] and [main] *)

Lemma extract_post_cases remote self url top_level_only w :
  extract_post remote self url top_level_only w
  = match extract_post_id url with
    | None => (inl (ValueError (str "Invalid Reddit URL")), w)
    | Some post_id =>
        let rq := {| rq_client_id := rr_client_id self;
                     rq_client_secret := rr_client_secret self;
                     rq_user_agent := rr_user_agent self;
                     rq_post_id := post_id |} in
        match remote rq with
        | inl e => (inl e, with_request rq w)
        | inr sub => (inr (post_of url top_level_only sub), with_request rq w)
        end
    end.
Proof.
  unfold extract_post. destruct (extract_post_id url); [|reflexivity].
  unfold bind, fetch_submission, ret. cbv zeta. fold (with_request
    {| rq_client_id := rr_client_id self; rq_client_secret := rr_client_secret self;
       rq_user_agent := rr_user_agent self; rq_post_id := p |} w).
  now destruct (remote _).
Qed.

(** The runs of [main], by cases. *)
Lemma main_cases db remote os environ args w :
  main db remote os environ args w
  = match resolve_credential (arg_client_id args)
            (environ !! str "REDDIT_CLIENT_ID"),
          resolve_credential (arg_client_secret args)
            (environ !! str "REDDIT_CLIENT_SECRET") with
    | Some (c1 :: i), Some (c2 :: s) =>
        match extract_post_id (arg_url args) with
        | None => (1%nat, with_stderr (str "Error: Invalid Reddit URL") w)
        | Some post_id =>
            let rq := request_of (c1 :: i) (c2 :: s) args post_id in
            match remote rq with
            | inl e =>
                (1%nat, with_stderr (str "Error: " ++ exn_msg e) (with_request rq w))
            | inr sub =>
                let pd := post_of (arg_url args) (arg_top_level_only args) sub in
                match save_to_file db os pd (format_markdown pd) (with_request rq w) with
                | (inl e, w1) => (1%nat, with_stderr (str "Error: " ++ exn_msg e) w1)
                | (inr path, w1) =>
                    (0%nat,
                     with_stdout (str "Successfully extracted to: " ++ path) w1)
                end
            end
        end
    | _, _ =>
        (1%nat,
         with_stderr
           (str "Error: Reddit API credentials required. Provide via CLI args or .env file.")
           w)
    end.
Proof.
  unfold main. rewrite !opt_or_resolve.
  destruct (resolve_credential (arg_client_id args) _) as [[|c1 i]|];
    try reflexivity;
    destruct (resolve_credential (arg_client_secret args) _) as [[|c2 s]|];
    try reflexivity.
  cbn [truthy truthy_list negb orb default].
  unfold main_try, bind. rewrite extract_post_cases.
  cbn [rr_client_id rr_client_secret rr_user_agent].
  destruct (extract_post_id (arg_url args)) as [post_id|]; [|reflexivity].
  cbv zeta. fold (request_of (c1 :: i) (c2 :: s) args post_id).
  destruct (remote _) as [e|sub]; [reflexivity|].
  now destruct (save_to_file _ _ _ _) as [[e|path] w1].
Qed.

Lemma save_to_file_keeps db os pd md w :
  w_stdout (snd (save_to_file db os pd md w)) = w_stdout w
  /\ w_stderr (snd (save_to_file db os pd md w)) = w_stderr w
  /\ w_requests (snd (save_to_file db os pd md w)) = w_requests w.
Proof.
  destruct (save_to_file_effects db os pd md w) as (_ & _ & _ & _ & H).
  exact H.
Qed.

(** X9. Once the arguments are parsed, a run of [main] ends in one of two ways: with status 0, one line
    [Successfully extracted to: <path>] added to the standard output and
    nothing to the error stream; or with status 1, one line [Error: <text>]
    added to the error stream and nothing to the standard output. *)
Theorem main_exit_status (db : unicode_db)
    (remote : request -> exn + submission) (os : os_model)
    (environ : gmap pystr pystr)
    (args : cli_args) (w : world) :
  let '(status, w') := main db remote os environ args w in
  (status = 0%nat
   /\ (exists path,
         w_stdout w' = w_stdout w ++ [str "Successfully extracted to: " ++ path])
   /\ w_stderr w' = w_stderr w)
  \/ (status = 1%nat
      /\ (exists text, w_stderr w' = w_stderr w ++ [str "Error: " ++ text])
      /\ w_stdout w' = w_stdout w).
Proof.
  rewrite main_cases.
  destruct (resolve_credential (arg_client_id args) _) as [[|c1 i]|];
    try (right; split; [reflexivity|]; split; [eexists; reflexivity | reflexivity]);
    destruct (resolve_credential (arg_client_secret args) _) as [[|c2 s]|];
    try (right; split; [reflexivity|]; split; [eexists; reflexivity | reflexivity]).
  destruct (extract_post_id (arg_url args)) as [post_id|];
    [|right; split; [reflexivity|]; split; [eexists; reflexivity | reflexivity]].
  cbv zeta. destruct (remote _) as [e|sub];
    [right; split; [reflexivity|]; split; [eexists; reflexivity | reflexivity]|].
  match goal with
  | |- context [save_to_file db os ?pd ?md ?w0] =>
      pose proof (save_to_file_keeps db os pd md w0) as (Hout & Herr & _);
      destruct (save_to_file db os pd md w0) as [[e|path] w1]
  end; cbn [snd] in Hout, Herr.
  - right. split; [reflexivity|]. cbn [with_stderr w_stderr w_stdout].
    rewrite Hout, Herr. split; [eexists; reflexivity | reflexivity].
  - left. split; [reflexivity|]. cbn [with_stdout w_stderr w_stdout].
    rewrite Hout, Herr. split; [eexists; reflexivity | reflexivity].
Qed.

(** X10. With both credentials and a URL that holds no thread id, [main]
    prints [Error: Invalid Reddit URL] on the error stream and ends with
    status 1; it sends no request and leaves the file system as it is. *)
Theorem main_invalid_url (db : unicode_db)
    (remote : request -> exn + submission) (os : os_model)
    (environ : gmap pystr pystr)
    (args : cli_args) (w : world) :
  usable (resolve_credential (arg_client_id args)
            (environ !! str "REDDIT_CLIENT_ID")) ->
  usable (resolve_credential (arg_client_secret args)
            (environ !! str "REDDIT_CLIENT_SECRET")) ->
  extract_post_id (arg_url args) = None ->
  main db remote os environ args w
  = (1%nat, with_stderr (str "Error: Invalid Reddit URL") w).
Proof.
  intros (c1 & i & Hi) (c2 & s & Hs) Hurl.
  now rewrite main_cases, Hi, Hs, Hurl.
Qed.

Lemma main_invalid_url_witness :
  main sample_db remote_scenario sample_os ∅ args_bad_url world_empty
  = (1%nat, with_stderr (str "Error: Invalid Reddit URL") world_empty).
Proof.
  apply (main_invalid_url sample_db remote_scenario sample_os ∅ args_bad_url
           world_empty).
  - now exists 105, (str "d").
  - now exists 115, (str "ecret").
  - reflexivity.
Defined.

(** X11. When the API raises, [main] reports the text of the exception on
    the error stream and ends with status 1, after exactly one request; the
    file system is untouched, the directory [output] is not even
    created. *)
Theorem main_remote_failure (db : unicode_db)
    (remote : request -> exn + submission) (os : os_model)
    (environ : gmap pystr pystr)
    (args : cli_args) (w : world) (i s post_id : pystr) (e : exn) :
  resolve_credential (arg_client_id args) (environ !! str "REDDIT_CLIENT_ID")
  = Some i ->
  i <> [] ->
  resolve_credential (arg_client_secret args)
    (environ !! str "REDDIT_CLIENT_SECRET") = Some s ->
  s <> [] ->
  extract_post_id (arg_url args) = Some post_id ->
  remote (request_of i s args post_id) = inl e ->
  main db remote os environ args w
  = (1%nat,
     {| w_dirs := w_dirs w; w_files := w_files w; w_stdout := w_stdout w;
        w_stderr := w_stderr w ++ [str "Error: " ++ exn_msg e];
        w_requests := w_requests w ++ [request_of i s args post_id] |}).
Proof.
  intros Hi Hine Hs Hsne Hurl Hremote.
  destruct i as [|c1 i]; [contradiction|]. destruct s as [|c2 s]; [contradiction|].
  rewrite main_cases, Hi, Hs, Hurl. cbv zeta. now rewrite Hremote.
Qed.

Lemma main_remote_failure_witness :
  main sample_db remote_scenario sample_os ∅ args_unknown world_empty
  = (1%nat,
     {| w_dirs := ∅; w_files := ∅; w_stdout := [];
        w_stderr := [str "Error: received 404 HTTP response"];
        w_requests := [request_of (str "id") (str "secret") args_unknown (str "zzz")] |}).
Proof.
  refine (main_remote_failure sample_db remote_scenario sample_os ∅ args_unknown
            world_empty
            (str "id") (str "secret") (str "zzz")
            (RemoteError (str "received 404 HTTP response")) _ _ _ _ _ _);
    try reflexivity; discriminate.
Defined.




(** ** [extract_comments] *)

Lemma comment_line_S d b :
  comment_line (S d) b = str "  " ++ comment_line d b.
Proof. unfold comment_line. cbn [str_mul]. now rewrite <- app_assoc. Qed.

Lemma visit_comment_shift c :
  forall d t,
    visit_comment (S d) t c = List.map (app (str "  ")) (visit_comment d t c).
Proof.
  induction c as [[b|] rs IH] using comment_ind; intros d t; [|reflexivity].
  cbn [visit_comment]. rewrite map_cons, comment_line_S. f_equal.
  destruct (negb t && truthy_list rs); [|reflexivity].
  clear b t. induction IH as [|r rs Hr _ IHrs]; [reflexivity|].
  simpl flat_map. now rewrite map_app, Hr, IHrs.
Qed.

Lemma extract_comments_shift f d t :
  extract_comments f (S d) t
  = List.map (app (str "  ")) (extract_comments f d t).
Proof.
  induction f as [|c f IH]; [reflexivity|].
  now rewrite !extract_comments_cons, map_app, visit_comment_shift, IH.
Qed.

(** X14. The depth only indents: flattening a forest from depth [d] gives
    the lines of flattening it from depth 0, each behind [d] times two
    spaces. *)
Theorem extract_comments_indent (forest : list comment) (depth : nat)
    (top_level_only : bool) :
  extract_comments forest depth top_level_only
  = List.map (app (str_mul (str "  ") depth))
      (extract_comments forest 0 top_level_only).
Proof.
  induction depth as [|d IH].
  - cbn [str_mul]. symmetry. apply map_id.
  - rewrite extract_comments_shift, IH, map_map. apply map_ext.
    intros line. cbn [str_mul]. now rewrite <- app_assoc.
Qed.

(** X15. A line determines the depth and the body it was built from: the
    marker cannot be taken for indentation. *)
Theorem comment_line_injective (d d' : nat) (b b' : pystr) :
  comment_line d b = comment_line d' b' -> d = d' /\ b = b'.
Proof.
  revert d'. induction d as [|d IH]; intros [|d'].
  - unfold comment_line. cbn [str_mul app]. intros H.
    apply app_inv_head in H. now split.
  - rewrite comment_line_S. unfold comment_line at 1. cbn [str_mul].
    change (str "- ") with [45; 32]. change (str "  ") with [32; 32].
    cbn [app]. intros H. discriminate H.
  - rewrite comment_line_S. unfold comment_line at 2. cbn [str_mul].
    change (str "- ") with [45; 32]. change (str "  ") with [32; 32].
    cbn [app]. intros H. discriminate H.
  - rewrite !comment_line_S. intros H. apply app_inv_head in H.
    apply IH in H as [-> ->]. now split.
Qed.

Lemma comment_line_injective_witness :
  1%nat = 1%nat /\ str "- x" = str "- x".
Proof.
  apply (comment_line_injective 1 1 (str "- x") (str "- x")). reflexivity.
Defined.

(** X16. The lines of the top-level comments are among the lines of all
    comments, in the same order. *)
Theorem extract_comments_top_sublist (forest : list comment) (depth : nat) :
  extract_comments forest depth true
  `sublist_of` extract_comments forest depth false.
Proof.
  induction forest as [|[[b|] rs] f IH]; rewrite ?extract_comments_cons.
  - constructor.
  - apply sublist_app; [|exact IH].
    rewrite visit_comment_top, visit_comment_all.
    apply sublist_skip, sublist_nil_l.
  - exact IH.
Qed.

Lemma extract_comments_prune f d :
  extract_comments f d false = extract_comments (prune f) d false.
Proof.
  induction f as [|c f IH]; [reflexivity|].
  unfold prune. simpl flat_map.
  rewrite extract_comments_cons, extract_comments_app.
  now rewrite visit_comment_prune, IH.
Qed.

Lemma prune_node_count c : (forest_count (prune_node c) <= node_count c)%nat.
Proof.
  induction c as [[b|] rs IH] using comment_ind; [|apply Nat.le_0_l].
  unfold forest_count. cbn [prune_node List.map list_sum fold_right node_count].
  rewrite Nat.add_0_r. apply le_n_S.
  induction IH as [|r rs Hr _ IHrs]; [reflexivity|].
  simpl flat_map. rewrite map_app, list_sum_app. simpl.
  unfold forest_count in Hr. lia.
Qed.

Lemma prune_count f : (forest_count (prune f) <= forest_count f)%nat.
Proof.
  induction f as [|c f IH]; [reflexivity|].
  unfold prune, forest_count in *. simpl flat_map.
  rewrite map_app, list_sum_app. simpl.
  pose proof (prune_node_count c) as Hc. unfold forest_count in Hc. lia.
Qed.

(** X17. On any forest, with or without bodies: the number of lines is the
    number of nodes that are not below a bodyless node (itself included),
    hence at most the number of nodes; with [top_level_only] it is the number
    of top-level nodes that have a body, hence at most the number of
    top-level nodes. *)
Theorem extract_comments_length_any (forest : list comment) (depth : nat) :
  length (extract_comments forest depth false) = forest_count (prune forest)
  /\ (forest_count (prune forest) <= forest_count forest)%nat
  /\ length (extract_comments forest depth true)
     = length (List.filter with_body forest)
  /\ (length (List.filter with_body forest) <= length forest)%nat.
Proof.
  split; [|split; [apply prune_count | split]].
  - rewrite extract_comments_prune. apply flatten_all_length, prune_all_bodies.
  - rewrite flatten_top_lines.
    induction forest as [|[[b|] rs] f IH]; simpl; [reflexivity | | exact IH].
    now rewrite IH.
  - apply filter_length_le.
Qed.

(** ** [extract_post_id] *)

Lemma span_class_spec cls s :
  exists r,
    s = span_class cls s ++ r
    /\ Forall (fun c => cls c = true) (span_class cls s)
    /\ match r with [] => True | c :: _ => cls c = false end.
Proof.
  induction s as [|c s (r & Hs & Hall & Hr)]; [now exists []|].
  simpl. destruct (cls c) eqn:Hc.
  - exists r. split; [simpl; now f_equal|]. split; [now constructor | exact Hr].
  - exists (c :: s). now repeat split.
Qed.

Lemma match_comments_here_inv s id :
  match_comments_here s = Some id ->
  exists rest,
    s = str "/comments/" ++ id ++ rest
    /\ id <> []
    /\ Forall (fun c => is_ascii_alnum c = true) id
    /\ match rest with [] => True | c :: _ => is_ascii_alnum c = false end.
Proof.
  unfold match_comments_here.
  destruct (strip_prefix (str "/comments/") s) as [after|] eqn:Hp; [|discriminate].
  apply strip_prefix_Some in Hp. subst s.
  destruct (span_class_spec is_ascii_alnum after) as (r & Hafter & Hall & Hr).
  destruct (span_class is_ascii_alnum after) as [|c run] eqn:Hspan; [discriminate|].
  intros [= <-]. exists r. rewrite Hafter at 1. now repeat split.
Qed.

Lemma extract_post_id_inv url id :
  extract_post_id url = Some id ->
  exists pre rest,
    url = pre ++ str "/comments/" ++ id ++ rest
    /\ id <> []
    /\ Forall (fun c => is_ascii_alnum c = true) id
    /\ match rest with [] => True | c :: _ => is_ascii_alnum c = false end
    /\ forall p c q, comments_at url p c q -> (length pre <= length p)%nat.
Proof.
  induction url as [|a url IH]; rewrite extract_post_id_unfold.
  - destruct (match_comments_here []) eqn:Hm; discriminate.
  - destruct (match_comments_here (a :: url)) as [id'|] eqn:Hm.
    + intros [= ->]. apply match_comments_here_inv in Hm as (rest & Hs & H).
      exists [], rest. split; [exact Hs|].
      destruct H as (H1 & H2 & H3). repeat split; try assumption.
      intros p c q _. simpl. lia.
    + intros H. apply IH in H as (pre & rest & Hs & H1 & H2 & H3 & Hfirst).
      exists (a :: pre), rest. split; [simpl; now f_equal|].
      repeat split; try assumption.
      intros [|b p] c q Hat.
      * now apply match_comments_here_None with (c := c) (q := q) in Hm.
      * destruct Hat as [Heq Hc]. injection Heq as -> Heq.
        assert (Hat : comments_at url p c q) by now split.
        apply Hfirst in Hat. simpl. lia.
Qed.

(** X18. Whatever [extract_post_id] returns is a non-empty run of ASCII
    letters and digits that stands in the URL right after [/comments/], is
    not followed by a letter or digit, and starts the leftmost place where
    [/comments/] is followed by a letter or digit. *)
Theorem extract_post_id_sound (url id : pystr) :
  extract_post_id url = Some id ->
  exists pre rest,
    url = pre ++ str "/comments/" ++ id ++ rest
    /\ id <> []
    /\ Forall (fun c => is_ascii_alnum c = true) id
    /\ match rest with [] => True | c :: _ => is_ascii_alnum c = false end
    /\ forall p c q, comments_at url p c q -> (length pre <= length p)%nat.
Proof. apply extract_post_id_inv. Qed.

Lemma extract_post_id_sound_witness :
  exists pre rest,
    url_scenario = pre ++ str "/comments/" ++ str "abc123" ++ rest
    /\ str "abc123" <> []
    /\ Forall (fun c => is_ascii_alnum c = true) (str "abc123")
    /\ match rest with [] => True | c :: _ => is_ascii_alnum c = false end
    /\ forall p c q, comments_at url_scenario p c q ->
                     (length pre <= length p)%nat.
Proof.
  apply (extract_post_id_sound url_scenario (str "abc123")). reflexivity.
Defined.

(** Two texts that agree up to the end of the shorter one's prefix. *)
Lemma app_prefix_shorter (a x b q : pystr) :
  a ++ x = b ++ q -> (length b <= length a)%nat -> exists t, a = b ++ t.
Proof.
  revert b. induction a as [|c a IH]; intros [|d b] H Hlen.
  - now exists [].
  - simpl in Hlen. lia.
  - now exists (c :: a).
  - injection H as -> H. simpl in Hlen.
    destruct (IH b H) as [t ->]; [lia|]. now exists t.
Qed.

(** X19. What follows the id does not matter: when the id was found in a
    URL that ends with a character other than a letter or digit (a slash,
    say), it is found again in every URL that continues that one, whatever
    the title, query string or fragment appended. *)
Theorem extract_post_id_suffix (u : pystr) (c : N) (id suffix : pystr) :
  extract_post_id (u ++ [c]) = Some id ->
  is_ascii_alnum c = false ->
  extract_post_id (u ++ c :: suffix) = Some id.
Proof.
  intros Hid Hc.
  apply extract_post_id_inv in Hid as (pre & rest & Hu & Hne & Hall & Hrest & Hfirst).
  assert (Hsplit : exists rest', rest = rest' ++ [c]
                                 /\ u = pre ++ str "/comments/" ++ id ++ rest').
  { destruct rest as [|x rest _] using rev_ind.
    - exfalso. rewrite app_nil_r in Hu.
      destruct id as [|y id _] using rev_ind; [contradiction|].
      rewrite !app_assoc in Hu. apply app_inj_tail in Hu as [_ ->].
      apply Forall_app in Hall as [_ Hy]. inversion Hy as [|? ? Hy' _]; subst.
      congruence.
    - exists rest. rewrite !app_assoc in Hu. apply app_inj_tail in Hu as [-> ->].
      split; [reflexivity | now rewrite <- !app_assoc]. }
  destruct Hsplit as (rest' & -> & ->).
  replace ((pre ++ str "/comments/" ++ id ++ rest') ++ c :: suffix)
    with (pre ++ str "/comments/" ++ id ++ (rest' ++ c :: suffix))
    by now rewrite <- !app_assoc.
  apply extract_post_id_first_match; try assumption.
  - destruct rest'; [exact Hc | exact Hrest].
  - intros p c' q [Heq Hc'].
    destruct (Nat.le_gt_cases (length pre) (length p)) as [|Hlt]; [assumption|].
    assert (Hshort : (length (p ++ str "/comments/" ++ [c'])
                      <= length (pre ++ str "/comments/" ++ id))%nat).
    { rewrite !length_app. destruct id; [contradiction|]. simpl. lia. }
    replace (pre ++ str "/comments/" ++ id ++ rest' ++ c :: suffix)
      with ((pre ++ str "/comments/" ++ id) ++ rest' ++ c :: suffix) in Heq
      by now rewrite <- !app_assoc.
    replace (p ++ str "/comments/" ++ c' :: q)
      with ((p ++ str "/comments/" ++ [c']) ++ q) in Heq
      by now rewrite <- !app_assoc.
    destruct (app_prefix_shorter _ _ _ _ Heq Hshort) as [t Ht].
    apply (Hfirst p c' (t ++ rest' ++ [c])). split; [|exact Hc'].
    replace ((pre ++ str "/comments/" ++ id ++ rest') ++ [c])
      with ((pre ++ str "/comments/" ++ id) ++ rest' ++ [c])
      by now rewrite <- !app_assoc.
    rewrite Ht. now rewrite <- !app_assoc.
Qed.

Lemma extract_post_id_suffix_witness :
  extract_post_id
    (str "https://old.reddit.com/comments/abc123" ++ 47 :: str "?sort=new#top")
  = Some (str "abc123").
Proof.
  apply (extract_post_id_suffix (str "https://old.reddit.com/comments/abc123")
           47 (str "abc123") (str "?sort=new#top"));
    reflexivity.
Defined.

Lemma extract_post_id_step c s :
  match_comments_here (c :: s) = None ->
  extract_post_id (c :: s) = extract_post_id s.
Proof. intros H. now rewrite extract_post_id_unfold, H. Qed.

Lemma match_comments_here_other c s :
  c <> 47 -> match_comments_here (c :: s) = None.
Proof.
  intros Hc. unfold match_comments_here.
  change (str "/comments/") with (47 :: str "comments/"). cbn [strip_prefix].
  now destruct (N.eqb_spec 47 c) as [<-|].
Qed.

(** Text without a slash is skipped. *)
Lemma extract_post_id_skip pre s :
  Forall (fun c => c <> 47) pre ->
  extract_post_id (pre ++ s) = extract_post_id s.
Proof.
  induction 1 as [|c pre Hc _ IH]; [reflexivity|].
  change ((c :: pre) ++ s) with (c :: (pre ++ s)).
  now rewrite extract_post_id_step by now apply match_comments_here_other.
Qed.

(** Two texts cut at their first slash. *)
Lemma first_slash_unique (a b r r' : pystr) :
  Forall (fun c => c <> 47) a -> Forall (fun c => c <> 47) b ->
  a ++ 47 :: r = b ++ 47 :: r' -> a = b.
Proof.
  intros Ha. revert b. induction Ha as [|x a Hx _ IH]; intros b Hb H.
  - destruct Hb as [|y b Hy _]; [reflexivity|]. injection H as <- _. contradiction.
  - destruct Hb as [|y b Hy Hb]; injection H as -> H; [contradiction|].
    f_equal. now apply IH.
Qed.

Lemma match_comments_here_subreddit subreddit t :
  Forall (fun c => c <> 47) subreddit ->
  subreddit <> str "comments" ->
  match_comments_here (47 :: subreddit ++ 47 :: t) = None.
Proof.
  intros Hsub Hne. unfold match_comments_here.
  change (str "/comments/") with (47 :: str "comments/").
  cbn [strip_prefix]. rewrite N.eqb_refl.
  destruct (strip_prefix (str "comments/") (subreddit ++ 47 :: t)) as [after|] eqn:E;
    [|reflexivity].
  exfalso. apply Hne. apply strip_prefix_Some in E.
  change (str "comments/" ++ after) with (str "comments" ++ 47 :: after) in E.
  apply first_slash_unique in E; [exact E | exact Hsub |].
  repeat constructor; discriminate.
Qed.

(** X20. The id put into the usual URL of a thread is the id read back from
    it, for every subreddit name without a slash other than [comments]. *)
Theorem extract_post_id_thread_url (subreddit id rest : pystr) :
  Forall (fun c => c <> 47) subreddit ->
  subreddit <> str "comments" ->
  id <> [] ->
  Forall (fun c => is_ascii_alnum c = true) id ->
  extract_post_id (thread_url subreddit id rest) = Some id.
Proof.
  intros Hsub Hne Hid Hall. unfold thread_url.
  change (extract_post_id
            (str "https:" ++ 47 :: 47 :: (str "www.reddit.com" ++ 47 :: 114 :: 47
               :: (subreddit ++ 47 :: (str "comments/" ++ id ++ str "/" ++ rest))))
          = Some id).
  rewrite extract_post_id_skip by (repeat constructor; discriminate).
  rewrite extract_post_id_step by reflexivity.
  rewrite extract_post_id_step by reflexivity.
  rewrite extract_post_id_skip by (repeat constructor; discriminate).
  rewrite extract_post_id_step by reflexivity.
  rewrite extract_post_id_step by reflexivity.
  rewrite extract_post_id_step by now apply match_comments_here_subreddit.
  rewrite extract_post_id_skip by exact Hsub.
  change (47 :: (str "comments/" ++ id ++ str "/" ++ rest))
    with (str "/comments/" ++ id ++ str "/" ++ rest).
  rewrite extract_post_id_unfold.
  now rewrite match_comments_here_id.
Qed.

Lemma extract_post_id_thread_url_witness :
  extract_post_id (thread_url (str "test") (str "abc123") (str "some_title/"))
  = Some (str "abc123").
Proof.
  apply (extract_post_id_thread_url (str "test") (str "abc123") (str "some_title/")).
  - repeat constructor; discriminate.
  - discriminate.
  - discriminate.
  - now repeat constructor.
Defined.

(** X21. For the subreddit named [comments] the usual URL of a thread gives
    the word [comments] instead of the id, whatever the id is: the leftmost
    [/comments/] is the one that ends the subreddit part. *)
Theorem extract_post_id_subreddit_comments (id rest : pystr) :
  extract_post_id (thread_url (str "comments") id rest) = Some (str "comments").
Proof. reflexivity. Qed.
